(** * Bulk file delivery by e-mail: the two sender scripts

    A shallow embedding of [file_delivery_script.py] (class
    [FileDeliveryService], [load_config], [main]) and of [email_sender.py]
    ([load_recipients], [create_email_message], [attach_file_to_email],
    [send_email], [validate_config], [main]).

    Python text is a [string] whose characters are read as the code points
    U+0000..U+00FF.  Everything the scripts ask of the outside (file system,
    console, SMTP server) is an [event]; a [world] answers each request from
    the events that happened before it, and every run yields the chronological
    list of the events it caused.  Calls to [logger] have no influence on the
    control flow and are left out. *)

From Stdlib Require Import List String Ascii ZArith Bool Arith Lia DecimalString.
From Stdlib Require Import Permutation.
Import ListNotations.
Local Open Scope string_scope.
Local Open Scope list_scope.

Set Implicit Arguments.

(** ** Python exceptions *)

Module Py.

(** The subclasses of [Exception] the two scripts raise or meet.
    [OtherError] stands for every further one (smtplib.SMTPException, OSError,
    UnicodeError, ...). *)
Inductive error : Type :=
| FileNotFoundError (msg : string)
| PermissionError (msg : string)
| ValueError (msg : string)
| KeyError (key : string)
| IndexError (index : Z)
| OtherError (msg : string).

(** What a statement can raise: an [Exception], or one of the two classes
    that derive from BaseException directly and that [main] knows about. *)
Inductive exn : Type :=
| KeyboardInterrupt
| SystemExit (code : Z)
| Error (e : error).

(** [except Exception] *)
Definition is_Exception (e : exn) : bool :=
  match e with
  | Error _ => true
  | KeyboardInterrupt | SystemExit _ => false
  end.

Definition is_KeyboardInterrupt (e : exn) : bool :=
  match e with KeyboardInterrupt => true | _ => false end.

(** [str(e)] *)
Definition str_error (e : error) : string :=
  match e with
  | FileNotFoundError m | PermissionError m | ValueError m | OtherError m => m
  | KeyError k => "'" ++ k ++ "'"
  | IndexError i =>
      "Replacement index " ++ NilZero.string_of_int (Z.to_int i)
      ++ " out of range for positional args tuple"
  end.

Definition str_exn (e : exn) : string :=
  match e with
  | Error e => str_error e
  | KeyboardInterrupt => ""
  | SystemExit _ => ""
  end.

(** Result of a call: a value or a raised exception. *)
Inductive res (A : Type) : Type :=
| Ret (a : A)
| Raise (e : exn).
Arguments Raise {A} e.

(** The line feed. *)
Definition nl : string := String (ascii_of_nat 10) EmptyString.

(** *** Truthiness *)

Definition truthy (s : string) : bool :=
  match s with EmptyString => false | String _ _ => true end.

Definition truthy_opt (o : option string) : bool :=
  match o with None => false | Some s => truthy s end.

(** [a or b] for an optional string [a] and a string [b]. *)
Definition or_else (a : option string) (b : string) : string :=
  match a with
  | Some (String c s) => String c s
  | _ => b
  end.

(** *** str methods *)

(** [c.isspace()] on U+0000..U+00FF. *)
Definition isspace (c : ascii) : bool :=
  let n := nat_of_ascii c in
  ((9 <=? n)%nat && (n <=? 13)%nat) || ((28 <=? n)%nat && (n <=? 32)%nat)
  || (n =? 133)%nat || (n =? 160)%nat.

Fixpoint lstrip (s : string) : string :=
  match s with
  | EmptyString => EmptyString
  | String c r => if isspace c then lstrip r else s
  end.

Fixpoint rstrip (s : string) : string :=
  match s with
  | EmptyString => EmptyString
  | String c r =>
      match rstrip r with
      | EmptyString => if isspace c then EmptyString else String c EmptyString
      | r' => String c r'
      end
  end.

(** [s.strip()] *)
Definition strip (s : string) : string := rstrip (lstrip s).

(** [s.startswith(c)] for a one-character prefix. *)
Definition startswith (c : ascii) (s : string) : bool :=
  match s with
  | String d _ => Ascii.eqb c d
  | EmptyString => false
  end.

(** [c in s] for a one-character needle. *)
Fixpoint contains (c : ascii) (s : string) : bool :=
  match s with
  | EmptyString => false
  | String d r => Ascii.eqb c d || contains c r
  end.

(** [os.path.basename]: what follows the last slash. *)
Fixpoint basename (p : string) : string :=
  match p with
  | EmptyString => EmptyString
  | String c r =>
      if contains "/"%char r then basename r
      else if Ascii.eqb c "/"%char then r else p
  end.

End Py.

(** ** [str.format] with the single keyword argument [sender_name] *)

Module Format.
Import Py.

(** Outcome of [template.format(sender_name=v)].  Replacement fields with a
    conversion ([!r]) or a format specification ([:>10]), and attribute or
    index lookups on the value itself ([{sender_name.x}], [{sender_name[0]}]),
    are outside the model and answer [Unmodelled]. *)
Inductive outcome (A : Type) : Type :=
| Done (a : A)
| Raises (e : error)
| Unmodelled.
Arguments Raises {A} e.
Arguments Unmodelled {A}.

Definition map_outcome {A B} (f : A -> B) (o : outcome A) : outcome B :=
  match o with
  | Done a => Done (f a)
  | Raises e => Raises e
  | Unmodelled => Unmodelled
  end.

Definition emit (c : ascii) (o : outcome string) : outcome string :=
  map_outcome (String c) o.

Definition emit_str (v : string) (o : outcome string) : outcome string :=
  map_outcome (append v) o.

Definition PY_SSIZE_T_MAX : Z := 9223372036854775807.

Definition digitval (c : ascii) : option Z :=
  let n := nat_of_ascii c in
  if (48 <=? n)%nat && (n <=? 57)%nat then Some (Z.of_nat n - 48)%Z else None.

(** [get_integer] of the format machinery: the value of a decimal index,
    [None] when the text is not a number, an error when it overflows. *)
Fixpoint get_integer_from (acc : Z) (s : string) : outcome (option Z) :=
  match s with
  | EmptyString => Done (Some acc)
  | String c r =>
      match digitval c with
      | None => Done None
      | Some d =>
          if (acc >? (PY_SSIZE_T_MAX - d) / 10)%Z
          then Raises (ValueError "Too many decimal digits in format string")
          else get_integer_from (acc * 10 + d) r
      end
  end.

Definition get_integer (s : string) : outcome (option Z) :=
  match s with
  | EmptyString => Done None
  | _ => get_integer_from 0 s
  end.

(** [field_name_split]: the part before the first [.] or [[], and the rest. *)
Fixpoint field_name_split (s : string) : string * string :=
  match s with
  | EmptyString => (EmptyString, EmptyString)
  | String c r =>
      if Ascii.eqb c "."%char || Ascii.eqb c "["%char then (EmptyString, s)
      else let (a, b) := field_name_split r in (String c a, b)
  end.

(** [get_field_object] with no positional arguments and the one keyword
    [sender_name]. *)
Definition get_field (sender_name : string) (field_name : string) : outcome string :=
  let (first, rest) := field_name_split field_name in
  match get_integer first with
  | Raises e => Raises e
  | Unmodelled => Unmodelled
  | Done (Some idx) => Raises (IndexError idx)
  | Done None =>
      match first with
      | EmptyString => Raises (IndexError 0)
      | _ =>
          if String.eqb first "sender_name" then
            match rest with
            | EmptyString => Done sender_name
            | _ => Unmodelled
            end
          else Raises (KeyError first)
      end
  end.

(** Where the scanner of the template stands. *)
Inductive scan : Type :=
| Literal
| Field (name : string)
| Bracket (name : string).

Definition snoc (s : string) (c : ascii) : string := s ++ String c EmptyString.

(** The markup iterator and the renderer in one left-to-right pass. *)
Fixpoint format_from (sender_name : string) (st : scan) (s : string)
  : outcome string :=
  match st with
  | Literal =>
      match s with
      | EmptyString => Done EmptyString
      | String c r =>
          if Ascii.eqb c "{"%char then
            match r with
            | EmptyString =>
                Raises (ValueError "Single '{' encountered in format string")
            | String d r' =>
                if Ascii.eqb d "{"%char
                then emit "{"%char (format_from sender_name Literal r')
                else format_from sender_name (Field EmptyString) r
            end
          else if Ascii.eqb c "}"%char then
            match r with
            | String d r' =>
                if Ascii.eqb d "}"%char
                then emit "}"%char (format_from sender_name Literal r')
                else Raises (ValueError "Single '}' encountered in format string")
            | EmptyString =>
                Raises (ValueError "Single '}' encountered in format string")
            end
          else emit c (format_from sender_name Literal r)
      end
  | Field name =>
      match s with
      | EmptyString => Raises (ValueError "expected '}' before end of string")
      | String c r =>
          if Ascii.eqb c "{"%char
          then Raises (ValueError "unexpected '{' in field name")
          else if Ascii.eqb c "["%char
          then format_from sender_name (Bracket (snoc name c)) r
          else if Ascii.eqb c "}"%char then
            match get_field sender_name name with
            | Done v => emit_str v (format_from sender_name Literal r)
            | Raises e => Raises e
            | Unmodelled => Unmodelled
            end
          else if Ascii.eqb c ":"%char || Ascii.eqb c "!"%char
          then Unmodelled
          else format_from sender_name (Field (snoc name c)) r
      end
  | Bracket name =>
      match s with
      | EmptyString => Raises (ValueError "expected '}' before end of string")
      | String c r =>
          if Ascii.eqb c "]"%char
          then format_from sender_name (Field (snoc name c)) r
          else format_from sender_name (Bracket (snoc name c)) r
      end
  end.

(** Text without braces. *)
Fixpoint brace_free (s : string) : bool :=
  match s with
  | EmptyString => true
  | String c r =>
      negb (Ascii.eqb c "{"%char) && negb (Ascii.eqb c "}"%char) && brace_free r
  end.


(** [template.format(sender_name=sender_name)] *)
Definition format (template sender_name : string) : outcome string :=
  format_from sender_name Literal template.

End Format.

(** ** The outside world and the effect monad *)

Module Eff.
Import Py.

(** One part of a MIME message.  An attachment keeps the bytes that were read
    from the file; [encode_base64] only changes their transfer encoding. *)
Inductive part : Type :=
| TextPart (text : string)
| Attachment (content_type : string) (payload : string) (disposition : string).

(** email.mime.multipart.MIMEMultipart with the headers the scripts set. *)
Record Message : Type := {
  msg_From : option string;
  msg_To : string;
  msg_Subject : string;
  msg_parts : list part
}.

(** [msg.attach(p)] *)
Definition attach (msg : Message) (p : part) : Message :=
  {| msg_From := msg_From msg; msg_To := msg_To msg;
     msg_Subject := msg_Subject msg; msg_parts := msg_parts msg ++ [p] |}.

(** Requests to the outside, in the order the scripts make them.
    [EvSendmail] stands for [msg.as_string()] followed by
    [server.sendmail(sender, recipient, text)]. *)
Inductive event : Type :=
| EvPathExists (path : string)
| EvIsFile (path : string)
| EvOpenRead (path : string)
| EvReadBytes (path : string)
| EvReadLines (path : string)
| EvReadConfig (path : string)
| EvListFiles (folder : string)
| EvInput (prompt : string)
| EvGetpass (prompt : string)
| EvConnect (host : string) (port : Z)
| EvStartTLS
| EvLogin (user password : string)
| EvSendmail (sender recipient : string) (msg : Message)
| EvQuit.

(** The operations on the transport session. *)
Definition is_transport (e : event) : bool :=
  match e with
  | EvConnect _ _ | EvStartTLS | EvLogin _ _ | EvSendmail _ _ _ | EvQuit => true
  | _ => false
  end.

Definition is_connect (e : event) : bool :=
  match e with EvConnect _ _ => true | _ => false end.

Definition is_quit (e : event) : bool :=
  match e with EvQuit => true | _ => false end.

Definition is_read_bytes (e : event) : bool :=
  match e with EvReadBytes _ => true | _ => false end.

Definition is_read_lines (e : event) : bool :=
  match e with EvReadLines _ => true | _ => false end.

(** The [email] section of a configuration file as [configparser] reads it:
    each option is present or not. *)
Record ini : Type := {
  ini_smtp_server : option string;
  ini_smtp_port : option Z;
  ini_sender_email : option string;
  ini_sender_password : option string
}.

(** What the outside answers: a value, an [Exception], or the user's
    interrupt arriving during the call. *)
Inductive reply (A : Type) : Type :=
| Ok (a : A)
| Fails (e : error)
| Interrupt.
Arguments Fails {A} e.
Arguments Interrupt {A}.

Definition to_res {A} (r : reply A) : res A :=
  match r with
  | Ok a => Ret a
  | Fails e => Raise (Error e)
  | Interrupt => Raise KeyboardInterrupt
  end.

(** The answer to a request is a function of the request and of the events
    before it. *)
Definition history : Type := list event.

Record world : Type := {
  path_exists : history -> string -> bool;
  path_isfile : history -> string -> bool;
  open_read : history -> string -> reply unit;
  read_bytes : history -> string -> reply string;
  read_lines : history -> string -> reply (list string);
  read_config : history -> string -> reply ini;
  list_files : history -> string -> reply (list string);
  console_input : history -> string -> reply string;
  console_getpass : history -> string -> reply string;
  smtp_connect : history -> string -> Z -> reply unit;
  smtp_starttls : history -> reply unit;
  smtp_login : history -> string -> string -> reply unit;
  smtp_sendmail : history -> string -> string -> Message -> reply unit;
  smtp_quit : history -> reply unit
}.

(** A computation reads the world, extends the history and returns or
    raises. *)
Definition M (A : Type) : Type := world -> history -> res A * history.

Definition ret {A} (a : A) : M A := fun _ h => (Ret a, h).

Definition raise {A} (e : exn) : M A := fun _ h => (Raise e, h).

Definition bind {A B} (m : M A) (k : A -> M B) : M B :=
  fun w h =>
    match m w h with
    | (Ret a, h') => k a w h'
    | (Raise e, h') => (Raise e, h')
    end.

(** [try: m  except <classes selected by catches> as e: handler e] *)
Definition try_except {A} (m : M A) (catches : exn -> bool) (handler : exn -> M A) : M A :=
  fun w h =>
    match m w h with
    | (Ret a, h') => (Ret a, h')
    | (Raise e, h') => if catches e then handler e w h' else (Raise e, h')
    end.

(** A request: record the event, then answer from the history before it. *)
Definition request {A} (ev : event) (answer : world -> history -> reply A) : M A :=
  fun w h => (to_res (answer w h), h ++ [ev]).

(** A request that cannot raise. *)
Definition query {A} (ev : event) (answer : world -> history -> A) : M A :=
  fun w h => (Ret (answer w h), h ++ [ev]).

(** A run from the start of the process. *)
Definition run {A} (m : M A) (w : world) : res A * history := m w [].

(** Every event a computation adds satisfies [Q]. *)
Definition emits (Q : event -> bool) {A} (m : M A) : Prop :=
  forall w h, exists t, snd (m w h) = h ++ t /\ forallb Q t = true.

(** A computation leaves the interpreter only with an exit code in [P]. *)
Definition exits_with (P : Z -> Prop) {A} (m : M A) : Prop :=
  forall w h c, fst (m w h) = Raise (SystemExit c) -> P c.

(** Events that touch neither the transport nor the recipient source. *)
Definition is_local (e : event) : bool :=
  negb (is_transport e) && negb (is_read_lines e).

End Eff.

Declare Scope eff_scope.
Delimit Scope eff_scope with eff.
Notation "x <- m ;; k" := (Eff.bind m (fun x => k))
  (at level 61, m at next level, right associativity) : eff_scope.
Notation "m ;;; k" := (Eff.bind m (fun _ => k))
  (at level 61, right associativity) : eff_scope.

(** ** file_delivery_script.py *)

Module FileDelivery.
Import Py Eff.
Local Open Scope eff_scope.

(** class FileDeliveryService *)
Record FileDeliveryService : Type := {
  smtp_server : string;
  smtp_port : Z;
  sender_email : option string;
  sender_password : option string
}.

(** [__init__]: the credentials start as [None]. *)
Definition init (server : string) (port : Z) : FileDeliveryService :=
  {| smtp_server := server; smtp_port := port;
     sender_email := None; sender_password := None |}.

Definition configure_email (self : FileDeliveryService) (email password : string)
  : FileDeliveryService :=
  {| smtp_server := smtp_server self; smtp_port := smtp_port self;
     sender_email := Some email; sender_password := Some password |}.

(** Body of the loop over the lines of the delivery list file. *)
Fixpoint collect_emails (lines : list string) : list string :=
  match lines with
  | [] => []
  | line :: rest =>
      let email := strip line in
      if truthy email && negb (startswith "#"%char email) then
        if contains "@"%char email then email :: collect_emails rest
        else collect_emails rest
      else collect_emails rest
  end.

(** [load_delivery_list]: both handlers log and raise the exception again. *)
Definition load_delivery_list (self : FileDeliveryService) (delivery_list_path : string)
  : M (list string) :=
  try_except
    (lines <- request (EvReadLines delivery_list_path)
                (fun w h => read_lines w h delivery_list_path) ;;
     ret (collect_emails lines))
    is_Exception
    (fun e => raise e).

(** [validate_file] *)
Definition validate_file (self : FileDeliveryService) (file_path : string) : M bool :=
  e <- query (EvPathExists file_path) (fun w h => path_exists w h file_path) ;;
  if negb e then ret false
  else
    f <- query (EvIsFile file_path) (fun w h => path_isfile w h file_path) ;;
    if negb f then ret false
    else
      try_except
        (request (EvOpenRead file_path) (fun w h => open_read w h file_path) ;;;
         ret true)
        is_Exception
        (fun _ => ret false).

Definition default_subject (filename : string) : string :=
  "File Delivery: " ++ filename.

Definition default_body (filename : string) : string :=
  nl ++ "Hello," ++ nl ++ nl
  ++ "Please find the attached file: " ++ filename ++ nl ++ nl
  ++ "This file was sent automatically by the File Delivery Service." ++ nl ++ nl
  ++ "Best regards," ++ nl
  ++ "File Delivery System" ++ nl
  ++ "        ".

(** The message of [create_email_message] before the attachment: headers
    and body. *)
Definition message_head (self : FileDeliveryService) (recipient file_path : string)
    (subject body : option string) : Message :=
  let filename := basename file_path in
  {| msg_From := sender_email self;
     msg_To := recipient;
     msg_Subject := or_else subject (default_subject filename);
     msg_parts := [TextPart (or_else body (default_body filename))] |}.

(** The MIMEBase part made of the bytes [data] of the file. *)
Definition attachment_part (file_path data : string) : part :=
  Attachment "application/octet-stream" data
    ("attachment; filename= " ++ basename file_path).

(** [create_email_message]: headers, body, then the attachment read from
    [file_path]; a failure to read is logged and raised again. *)
Definition create_email_message (self : FileDeliveryService)
    (recipient file_path : string) (subject body : option string) : M Message :=
  let msg := message_head self recipient file_path subject body in
  try_except
    (data <- request (EvReadBytes file_path) (fun w h => read_bytes w h file_path) ;;
     ret (attach msg (attachment_part file_path data)))
    is_Exception
    (fun e => raise e).

(** The dictionary [results]. *)
Record Results : Type := {
  successful : list string;
  failed : list (string * string);
  total : nat
}.

Definition add_successful (r : Results) (recipient : string) : Results :=
  {| successful := successful r ++ [recipient]; failed := failed r; total := total r |}.

Definition add_failed (r : Results) (recipient error : string) : Results :=
  {| successful := successful r; failed := failed r ++ [(recipient, error)];
     total := total r |}.

Definition from_addr (self : FileDeliveryService) : string :=
  match sender_email self with Some s => s | None => EmptyString end.

Definition password (self : FileDeliveryService) : string :=
  match sender_password self with Some s => s | None => EmptyString end.

(** The two statements inside the inner [try]. *)
Definition send_one (self : FileDeliveryService) (file_path : string)
    (subject body : option string) (recipient : string) : M unit :=
  msg <- create_email_message self recipient file_path subject body ;;
  request (EvSendmail (from_addr self) recipient msg)
    (fun w h => smtp_sendmail w h (from_addr self) recipient msg).

(** [for recipient in delivery_list: try: ... except Exception as e: ...] *)
Fixpoint send_loop (self : FileDeliveryService) (file_path : string)
    (subject body : option string) (delivery_list : list string) (results : Results)
  : M Results :=
  match delivery_list with
  | [] => ret results
  | recipient :: rest =>
      results' <-
        try_except
          (send_one self file_path subject body recipient ;;;
           ret (add_successful results recipient))
          is_Exception
          (fun e => ret (add_failed results recipient (str_exn e))) ;;
      send_loop self file_path subject body rest results'
  end.

Definition credentials_error : exn :=
  Error (ValueError "Email credentials not configured. Use configure_email() method.").

(** [send_file] *)
Definition send_file (self : FileDeliveryService) (file_path : string)
    (delivery_list : list string) (subject body : option string) : M Results :=
  let results := {| successful := []; failed := []; total := List.length delivery_list |} in
  if negb (truthy_opt (sender_email self)) || negb (truthy_opt (sender_password self))
  then raise credentials_error
  else
    try_except
      (request (EvConnect (smtp_server self) (smtp_port self))
         (fun w h => smtp_connect w h (smtp_server self) (smtp_port self)) ;;;
       request EvStartTLS smtp_starttls ;;;
       request (EvLogin (from_addr self) (password self))
         (fun w h => smtp_login w h (from_addr self) (password self)) ;;;
       results' <- send_loop self file_path subject body delivery_list results ;;
       request EvQuit smtp_quit ;;;
       ret results')
      is_Exception
      (fun e => raise e).

(** The dictionary [load_config] returns. *)
Record Config : Type := {
  cfg_smtp_server : string;
  cfg_smtp_port : Z;
  cfg_sender_email : string;
  cfg_sender_password : string
}.

Definition fallback {A} (o : option A) (d : A) : A :=
  match o with Some a => a | None => d end.

Definition default_config : Config :=
  {| cfg_smtp_server := "smtp.gmail.com"; cfg_smtp_port := 587;
     cfg_sender_email := ""; cfg_sender_password := "" |}.

(** [load_config] *)
Definition load_config (config_path : string) : M Config :=
  e <- query (EvPathExists config_path) (fun w h => path_exists w h config_path) ;;
  if e then
    c <- request (EvReadConfig config_path) (fun w h => read_config w h config_path) ;;
    ret {| cfg_smtp_server := fallback (ini_smtp_server c) "smtp.gmail.com";
           cfg_smtp_port := fallback (ini_smtp_port c) 587%Z;
           cfg_sender_email := fallback (ini_sender_email c) "";
           cfg_sender_password := fallback (ini_sender_password c) "" |}
  else ret default_config.

(** The parsed command line. *)
Record Args : Type := {
  arg_file : string;
  arg_delivery_list : string;
  arg_subject : option string;
  arg_body : option string;
  arg_config : string;
  arg_sender_email : option string;
  arg_sender_password : option string
}.

Definition sys_exit {A} (code : Z) : M A := raise (SystemExit code).

(** The first statements of the [try] block of [main]: configuration,
    credentials, service. *)
Definition main_service (args : Args) : M FileDeliveryService :=
  config <- load_config (arg_config args) ;;
  let email0 := or_else (arg_sender_email args) (cfg_sender_email config) in
  let password0 := or_else (arg_sender_password args) (cfg_sender_password config) in
  email <- (if negb (truthy email0)
            then request (EvInput "Enter sender email address: ")
                   (fun w h => console_input w h "Enter sender email address: ")
            else ret email0) ;;
  pass <- (if negb (truthy password0)
           then request (EvGetpass "Enter sender email password: ")
                  (fun w h => console_getpass w h "Enter sender email password: ")
           else ret password0) ;;
  ret (configure_email (init (cfg_smtp_server config) (cfg_smtp_port config))
         email pass).

(** The [try] block of [main] up to the call of [send_file], whose result
    it returns. *)
Definition main_deliver (args : Args) : M Results :=
  delivery_service <- main_service args ;;
  ok <- validate_file delivery_service (arg_file args) ;;
  if negb ok then sys_exit 1
  else
    delivery_list <- load_delivery_list delivery_service (arg_delivery_list args) ;;
    match delivery_list with
    | [] => sys_exit 1
    | _ :: _ =>
        send_file delivery_service (arg_file args) delivery_list
          (arg_subject args) (arg_body args)
    end.

(** The whole [try] block: the report decides the exit code. *)
Definition main_try (args : Args) : M unit :=
  results <- main_deliver args ;;
  sys_exit (if (List.length (failed results) =? 0)%nat then 0%Z else 1%Z).

(** [main]: the two handlers both end in [sys.exit(1)]. *)
Definition main (args : Args) : M unit :=
  try_except (main_try args)
    (fun e => is_KeyboardInterrupt e || is_Exception e)
    (fun _ => sys_exit 1).

(** Exit status of the process that ran [main]. *)
Definition exit_code (r : res unit) : Z :=
  match r with
  | Ret _ => 0
  | Raise (SystemExit c) => c
  | Raise _ => 1
  end.

(** *** Vocabulary for the runs of [send_file] *)

Definition configured (self : FileDeliveryService) : Prop :=
  truthy_opt (sender_email self) = true /\ truthy_opt (sender_password self) = true.

(** The three requests that open the session. *)
Definition open_events (self : FileDeliveryService) : list event :=
  [EvConnect (smtp_server self) (smtp_port self); EvStartTLS;
   EvLogin (from_addr self) (password self)].

(** The session opens when [send_file] starts after [h]. *)
Definition opens (w : world) (self : FileDeliveryService) (h : history) : Prop :=
  smtp_connect w h (smtp_server self) (smtp_port self) = Ok tt
  /\ smtp_starttls w (h ++ [EvConnect (smtp_server self) (smtp_port self)]) = Ok tt
  /\ smtp_login w (h ++ [EvConnect (smtp_server self) (smtp_port self); EvStartTLS])
       (from_addr self) (password self) = Ok tt.

(** Reading the file and sending a message fail with an [Exception] only. *)
Definition errors_only (w : world) : Prop :=
  (forall h p, read_bytes w h p <> Interrupt)
  /\ (forall h s r m, smtp_sendmail w h s r m <> Interrupt).

(** What happened to one recipient. *)
Inductive fate : Type :=
| ComposeFailed (e : error)
| SendFailed (data : string) (e : error)
| Sent (data : string).

Definition attempt : Type := (string * fate)%type.

Section Run.
Variable w : world.
Variable self : FileDeliveryService.
Variable file_path : string.
Variables subject body : option string.

(** The message for [recipient] around the bytes [data]. *)
Definition message_for (recipient data : string) : Message :=
  attach (message_head self recipient file_path subject body)
    (attachment_part file_path data).

(** The requests made for one recipient. *)
Definition events_of (a : attempt) : list event :=
  EvReadBytes file_path ::
  match snd a with
  | ComposeFailed _ => []
  | SendFailed data _ | Sent data =>
      [EvSendmail (from_addr self) (fst a) (message_for (fst a) data)]
  end.

(** The attempt agrees with what the world answers after [h]. *)
Definition agrees (h : history) (a : attempt) : Prop :=
  match snd a with
  | ComposeFailed e => read_bytes w h file_path = Fails e
  | SendFailed data e =>
      read_bytes w h file_path = Ok data
      /\ smtp_sendmail w (h ++ [EvReadBytes file_path]) (from_addr self) (fst a)
           (message_for (fst a) data) = Fails e
  | Sent data =>
      read_bytes w h file_path = Ok data
      /\ smtp_sendmail w (h ++ [EvReadBytes file_path]) (from_addr self) (fst a)
           (message_for (fst a) data) = Ok tt
  end.

(** A chain of attempts, each one made after the events of those before. *)
Inductive Attempts : history -> list attempt -> Prop :=
| Attempts_nil h : Attempts h []
| Attempts_cons h a rest :
    agrees h a -> Attempts (h ++ events_of a) rest -> Attempts h (a :: rest).

End Run.

(** The entry of the report for one attempt. *)
Definition record_attempt (r : Results) (a : attempt) : Results :=
  match snd a with
  | Sent _ => add_successful r (fst a)
  | ComposeFailed e | SendFailed _ e => add_failed r (fst a) (str_error e)
  end.

Definition report_of (r : Results) (atts : list attempt) : Results :=
  fold_left record_attempt atts r.

Definition succeeded (a : attempt) : bool :=
  match snd a with Sent _ => true | _ => false end.

Definition failure_of (a : attempt) : option (string * string) :=
  match snd a with
  | Sent _ => None
  | ComposeFailed e | SendFailed _ e => Some (fst a, str_error e)
  end.

(** The payload of the attachment of a message. *)
Definition payloads (m : Message) : list string :=
  flat_map (fun p => match p with Attachment _ d _ => [d] | TextPart _ => [] end)
    (msg_parts m).

End FileDelivery.

(** ** email_sender.py *)

Module EmailSender.
Import Py Eff.
Local Open Scope eff_scope.

(** The module-level dictionary [EMAIL_CONFIG]; config_setup.py rewrites its
    values in the script, so it is an input of the model.  A missing required
    key behaves like an empty value in [validate_config]. *)
Record EmailConfig : Type := {
  ec_smtp_server : string;
  ec_smtp_port : Z;
  ec_sender_email : string;
  ec_sender_password : string;
  ec_sender_name : option string
}.

Definition FILES_FOLDER : string := "./files_to_send".
Definition RECIPIENTS_FILE : string := "./recipients.txt".
Definition EMAIL_SUBJECT : string := "Files for Review".
Definition EMAIL_BODY : string := "
Dear Recipient,

I hope this email finds you well.

Please find the attached files for your review. These documents contain important information that requires your attention.

Key points:
- Please review all attached files carefully
- Feel free to reach out if you have any questions
- Your feedback is greatly appreciated

Thank you for your time and consideration.

Best regards,
{sender_name}
".

(** The condition of the list comprehension of [load_recipients]. *)
Definition keeps (line : string) : bool :=
  truthy (strip line) && contains "@"%char line.

(** The list comprehension itself. *)
Definition select_recipients (lines : list string) : list string :=
  map strip (filter keeps lines).

Definition no_recipients_error : exn :=
  Error (ValueError "No valid email addresses found in recipients file").

(** [load_recipients] *)
Definition load_recipients (file_path : string) : M (list string) :=
  try_except
    (lines <- request (EvReadLines file_path) (fun w h => read_lines w h file_path) ;;
     let recipients := select_recipients lines in
     match recipients with
     | [] => raise no_recipients_error
     | _ :: _ => ret recipients
     end)
    is_Exception
    (fun e => raise e).

(** [get_files_to_send]: the listing answers with the paths of the regular
    files of the folder. *)
Definition get_files_to_send (folder_path : string) : M (list string) :=
  try_except
    (e <- query (EvPathExists folder_path) (fun w h => path_exists w h folder_path) ;;
     if negb e
     then raise (Error (FileNotFoundError ("Files folder not found: " ++ folder_path)))
     else request (EvListFiles folder_path) (fun w h => list_files w h folder_path))
    is_Exception
    (fun e => raise e).

(** [create_email_message]: no input or output, the body goes through
    [str.format]. *)
Definition create_email_message (sender_email recipient_email subject body
    sender_name : string) : Format.outcome Message :=
  Format.map_outcome
    (fun formatted_body =>
       {| msg_From := Some (if truthy sender_name
                            then (sender_name ++ " <" ++ sender_email ++ ">")%string
                            else sender_email);
          msg_To := recipient_email;
          msg_Subject := subject;
          msg_parts := [TextPart formatted_body] |})
    (Format.format body sender_name).

(** [attach_file_to_email]: the message after the call and the returned
    flag. *)
Definition attach_file_to_email (msg : Message) (file_path : string)
  : M (Message * bool) :=
  try_except
    (data <- request (EvReadBytes file_path) (fun w h => read_bytes w h file_path) ;;
     ret (attach msg (Attachment "application/octet-stream" data
                        ("attachment; filename= " ++ basename file_path)), true))
    is_Exception
    (fun _ => ret (msg, false)).

(** [send_email]: one session per message. *)
Definition send_email (smtp_server : string) (smtp_port : Z)
    (sender_email sender_password : string) (msg : Message) : M bool :=
  try_except
    (request (EvConnect smtp_server smtp_port)
       (fun w h => smtp_connect w h smtp_server smtp_port) ;;;
     request EvStartTLS smtp_starttls ;;;
     request (EvLogin sender_email sender_password)
       (fun w h => smtp_login w h sender_email sender_password) ;;;
     request (EvSendmail sender_email (msg_To msg) msg)
       (fun w h => smtp_sendmail w h sender_email (msg_To msg) msg) ;;;
     request EvQuit smtp_quit ;;;
     ret true)
    is_Exception
    (fun _ => ret false).

(** [validate_config] *)
Definition validate_config (cfg : EmailConfig) : bool :=
  if negb (truthy (ec_smtp_server cfg)) then false
  else if (ec_smtp_port cfg =? 0)%Z then false
  else if negb (truthy (ec_sender_email cfg)) then false
  else if negb (truthy (ec_sender_password cfg)) then false
  else if String.eqb (ec_sender_email cfg) "your_email@gmail.com" then false
  else if String.eqb (ec_sender_password cfg) "your_app_password" then false
  else true.

(** The inner loop of [main] with its [break]. *)
Fixpoint attach_all (msg : Message) (files_to_send : list string)
  : M (Message * bool) :=
  match files_to_send with
  | [] => ret (msg, true)
  | file_path :: rest =>
      r <- attach_file_to_email msg file_path ;;
      if negb (snd r) then ret (fst r, false) else attach_all (fst r) rest
  end.

(** An exception of [create_email_message] leaves the loop.  The shipped
    [EMAIL_BODY] never reaches the last case. *)
Definition compose (o : Format.outcome Message) : M Message :=
  match o with
  | Format.Done msg => ret msg
  | Format.Raises e => raise (Error e)
  | Format.Unmodelled => raise (Error (OtherError "str.format"))
  end.

Definition get_sender_name (cfg : EmailConfig) : string :=
  match ec_sender_name cfg with Some n => n | None => EmptyString end.

(** The loop over the recipients with the two counters. *)
Fixpoint main_loop (cfg : EmailConfig) (files_to_send recipients : list string)
    (successful_sends failed_sends : nat) : M (nat * nat) :=
  match recipients with
  | [] => ret (successful_sends, failed_sends)
  | recipient :: rest =>
      msg <- compose (create_email_message (ec_sender_email cfg) recipient
                        EMAIL_SUBJECT EMAIL_BODY (get_sender_name cfg)) ;;
      r <- attach_all msg files_to_send ;;
      if negb (snd r)
      then main_loop cfg files_to_send rest successful_sends (S failed_sends)
      else
        sent <- send_email (ec_smtp_server cfg) (ec_smtp_port cfg)
                  (ec_sender_email cfg) (ec_sender_password cfg) (fst r) ;;
        if sent
        then main_loop cfg files_to_send rest (S successful_sends) failed_sends
        else main_loop cfg files_to_send rest successful_sends (S failed_sends)
  end.

(** [main] *)
Definition main (cfg : EmailConfig) : M bool :=
  try_except
    (if negb (validate_config cfg) then ret false
     else
       recipients <- load_recipients RECIPIENTS_FILE ;;
       files_to_send <- get_files_to_send FILES_FOLDER ;;
       match files_to_send with
       | [] => ret false
       | _ :: _ =>
           counts <- main_loop cfg files_to_send recipients 0 0 ;;
           ret (0 <? fst counts)%nat
       end)
    is_Exception
    (fun _ => ret false).

(** [success = main(); sys.exit(0 if success else 1)]: the exit status, or the
    exception that ends the interpreter. *)
Inductive status : Type :=
| Exited (code : Z)
| Uncaught (e : exn).

Definition script_status (r : res bool) : status :=
  match r with
  | Ret true => Exited 0
  | Ret false => Exited 1
  | Raise (SystemExit c) => Exited c
  | Raise e => Uncaught e
  end.

(** *** Vocabulary for the runs of [main_loop] *)

Section Turns.
Variable w : world.
Variable cfg : EmailConfig.
Variable files_to_send : list string.



(** What happened to one recipient: the message [msg], with its attachments,
    went through a whole session that started after [h], or the recipient
    was counted as failed. *)
Inductive turn : Type :=
| Delivered (msg : Message) (h : history)
| Undelivered.



End Turns.

End EmailSender.

(** ** The address-list loader as the specification words it *)

Module Spec.
Import Py.

(** A line the loader retains: not blank, not a comment, with the domain
    separator. *)
Definition retained (line : string) : bool :=
  let a := strip line in
  truthy a && negb (startswith "#"%char a) && contains "@"%char a.

(** A comment line that holds the domain separator. *)
Definition comment_with_separator (line : string) : bool :=
  let a := strip line in
  startswith "#"%char a && contains "@"%char a.

(** Duplicates collapsed, order of first occurrence kept. *)
Fixpoint collapse (seen l : list string) : list string :=
  match l with
  | [] => []
  | x :: r =>
      if existsb (String.eqb x) seen then collapse seen r
      else x :: collapse (x :: seen) r
  end.

(** [load(source)]: the distinct valid addresses of the source. *)
Definition spec_load (lines : list string) : list string :=
  collapse [] (map strip (filter retained lines)).

End Spec.

(** ** Concrete worlds for the examples *)

Module Worlds.
Import Py Eff.

(** Everything exists and every request succeeds; the delivery list file holds
    [lines], reading the attachment answers [bytes], sending answers [send]. *)
Definition make (lines : list string) (bytes : history -> reply string)
    (send : history -> string -> reply unit) : world :=
  {| path_exists := fun _ _ => true;
     path_isfile := fun _ _ => true;
     open_read := fun _ _ => Ok tt;
     read_bytes := fun h _ => bytes h;
     read_lines := fun _ _ => Ok lines;
     read_config := fun _ _ =>
       Ok {| ini_smtp_server := Some "mail.x.com"; ini_smtp_port := None;
             ini_sender_email := Some "me@x.com";
             ini_sender_password := Some "secret" |};
     list_files := fun _ _ => Ok ["files_to_send/a.txt"];
     console_input := fun _ _ => Ok "me@x.com";
     console_getpass := fun _ _ => Ok "secret";
     smtp_connect := fun _ _ _ => Ok tt;
     smtp_starttls := fun _ => Ok tt;
     smtp_login := fun _ _ _ => Ok tt;
     smtp_sendmail := fun h _ r _ => send h r;
     smtp_quit := fun _ => Ok tt |}.

(** Scenario A of the specification. *)
Definition scenario_A : list string :=
  ["a@x.com" ++ nl; "# comment" ++ nl; nl; "b@x.com" ++ nl; "badline" ++ nl;
   "a@x.com" ++ nl]%string.

Definition three : list string :=
  ["r1@x.com" ++ nl; "r2@x.com" ++ nl; "r3@x.com" ++ nl]%string.

Definition two : list string := ["r1@x.com" ++ nl; "r2@x.com" ++ nl]%string.

(** Nothing but a comment that holds an address. *)
Definition commented : list string := ["# old@x.com" ++ nl]%string.

(** Only a comment, a blank line and a line without the separator. *)
Definition nothing_valid : list string :=
  ["# comment" ++ nl; nl; "badline" ++ nl]%string.

Definition accept_all : history -> string -> reply unit := fun _ _ => Ok tt.

(** The server rejects the recipient r2@x.com. *)
Definition reject_r2 : history -> string -> reply unit :=
  fun _ r => if String.eqb r "r2@x.com"
             then Fails (OtherError "recipient refused") else Ok tt.

(** The user interrupts the first transmission. *)
Definition interrupt_send : history -> string -> reply unit :=
  fun _ _ => Interrupt.

Definition same_bytes : history -> reply string := fun _ => Ok "DATA".

(** The file is rewritten between the reads: the answer is the number of
    reads so far, as version 1 or a later version. *)
Definition changing_bytes : history -> reply string :=
  fun h => match filter is_read_bytes h with
           | [] => Ok "version 1"
           | _ :: _ => Ok "version 2"
           end.

Definition calm : world := make three same_bytes accept_all.

Definition service : FileDelivery.FileDeliveryService :=
  FileDelivery.configure_email (FileDelivery.init "mail.x.com" 587) "me@x.com" "secret".

Definition args : FileDelivery.Args :=
  {| FileDelivery.arg_file := "/srv/report.pdf";
     FileDelivery.arg_delivery_list := "list.txt";
     FileDelivery.arg_subject := None;
     FileDelivery.arg_body := None;
     FileDelivery.arg_config := "config.ini";
     FileDelivery.arg_sender_email := None;
     FileDelivery.arg_sender_password := None |}.

(** The same world, but the file to send does not exist. *)
Definition missing_file (w : world) : world :=
  {| path_exists := fun _ p => negb (String.eqb p "/srv/report.pdf");
     path_isfile := path_isfile w; open_read := open_read w;
     read_bytes := read_bytes w; read_lines := read_lines w;
     read_config := read_config w; list_files := list_files w;
     console_input := console_input w; console_getpass := console_getpass w;
     smtp_connect := smtp_connect w; smtp_starttls := smtp_starttls w;
     smtp_login := smtp_login w; smtp_sendmail := smtp_sendmail w;
     smtp_quit := smtp_quit w |}.

Definition email_config : EmailSender.EmailConfig :=
  {| EmailSender.ec_smtp_server := "mail.x.com";
     EmailSender.ec_smtp_port := 587;
     EmailSender.ec_sender_email := "me@x.com";
     EmailSender.ec_sender_password := "secret";
     EmailSender.ec_sender_name := Some "Ann" |}.

End Worlds.

(** ** Further vocabulary for the properties *)

Module Vocabulary.
Import Py Eff.

Definition is_sendmail (e : event) : bool :=
  match e with EvSendmail _ _ _ => true | _ => false end.

(** Events of a session that never got to the recipients. *)
Definition before_recipients (e : event) : bool :=
  negb (is_read_bytes e) && negb (is_sendmail e) && negb (is_quit e).

(** The recipients of the transmissions, in the order of the events. *)
Definition sendmail_recipients (t : list event) : list string :=
  flat_map (fun e => match e with EvSendmail _ r _ => [r] | _ => [] end) t.

Definition is_console (e : event) : bool :=
  match e with EvInput _ | EvGetpass _ => true | _ => false end.

(** The file to send is there and can be opened. *)
Definition file_is_valid (w : world) (p : string) : Prop :=
  (forall h, path_exists w h p = true)
  /\ (forall h, path_isfile w h p = true)
  /\ (forall h, open_read w h p = Ok tt).

(** The configuration file, when it is read, gives both credentials. *)
Definition config_has_credentials (w : world) : Prop :=
  forall h p, exists c,
    read_config w h p = Ok c
    /\ truthy_opt (ini_sender_email c) = true
    /\ truthy_opt (ini_sender_password c) = true.

(** A world without stored credentials whose console answers with empty
    lines; everything else as in [w]. *)
Definition without_credentials (w : world) : world :=
  {| path_exists := path_exists w; path_isfile := path_isfile w;
     open_read := open_read w; read_bytes := read_bytes w;
     read_lines := read_lines w;
     read_config := fun _ _ =>
       Ok {| ini_smtp_server := None; ini_smtp_port := None;
             ini_sender_email := None; ini_sender_password := None |};
     list_files := list_files w;
     console_input := fun _ _ => Ok EmptyString;
     console_getpass := fun _ _ => Ok EmptyString;
     smtp_connect := smtp_connect w; smtp_starttls := smtp_starttls w;
     smtp_login := smtp_login w; smtp_sendmail := smtp_sendmail w;
     smtp_quit := smtp_quit w |}.

(** The world [w] with a server that refuses every connection. *)
Definition refusing_connections (e : error) (w : world) : world :=
  {| path_exists := path_exists w; path_isfile := path_isfile w;
     open_read := open_read w; read_bytes := read_bytes w;
     read_lines := read_lines w; read_config := read_config w;
     list_files := list_files w; console_input := console_input w;
     console_getpass := console_getpass w;
     smtp_connect := fun _ _ _ => Fails e;
     smtp_starttls := smtp_starttls w; smtp_login := smtp_login w;
     smtp_sendmail := smtp_sendmail w; smtp_quit := smtp_quit w |}.

(** The world [w] with a server that fails at every [quit]. *)
Definition failing_at_quit (e : error) (w : world) : world :=
  {| path_exists := path_exists w; path_isfile := path_isfile w;
     open_read := open_read w; read_bytes := read_bytes w;
     read_lines := read_lines w; read_config := read_config w;
     list_files := list_files w; console_input := console_input w;
     console_getpass := console_getpass w;
     smtp_connect := smtp_connect w;
     smtp_starttls := smtp_starttls w; smtp_login := smtp_login w;
     smtp_sendmail := smtp_sendmail w; smtp_quit := fun _ => Fails e |}.

(** The world [w] in which the file [bad] cannot be read. *)
Definition with_unreadable (bad : string) (e : error) (w : world) : world :=
  {| path_exists := path_exists w; path_isfile := path_isfile w;
     open_read := open_read w;
     read_bytes := fun h p => if String.eqb p bad then Fails e else read_bytes w h p;
     read_lines := read_lines w; read_config := read_config w;
     list_files := list_files w; console_input := console_input w;
     console_getpass := console_getpass w;
     smtp_connect := smtp_connect w; smtp_starttls := smtp_starttls w;
     smtp_login := smtp_login w; smtp_sendmail := smtp_sendmail w;
     smtp_quit := smtp_quit w |}.

(** A template text with every brace doubled. *)
Fixpoint escape (s : string) : string :=
  match s with
  | EmptyString => EmptyString
  | String c r =>
      if Ascii.eqb c "{"%char || Ascii.eqb c "}"%char
      then String c (String c (escape r))
      else String c (escape r)
  end.

(** The file can always be read. *)
Definition readable (w : world) : Prop :=
  forall h p, exists data, read_bytes w h p = Ok data.

(** The server accepts every session and every message. *)
Definition server_accepts (w : world) : Prop :=
  (forall h host port, smtp_connect w h host port = Ok tt)
  /\ (forall h, smtp_starttls w h = Ok tt)
  /\ (forall h u p, smtp_login w h u p = Ok tt)
  /\ (forall h s r m, smtp_sendmail w h s r m = Ok tt)
  /\ (forall h, smtp_quit w h = Ok tt).

End Vocabulary.

(** ** config_setup.py *)

(** The helper that writes the user's settings into email_sender.py.  Its
    terminal is a list of keys still to come, read by [input] and by
    [getpass] alike; the script file is a value of the state.  The calls to
    [print] with plain text are left out, and with them the instructions of
    the providers; the three lines that start with a pictograph, which an
    output stream with a narrow encoding refuses, are part of the model, and so
    is a write that stops half way.  Files are as on POSIX: reading in text
    mode turns every line end into a line feed, writing leaves the text as it
    is. *)

Module ConfigSetup.
Import Py.

(** What the next read of the terminal yields. *)
Inductive key : Type :=
| Line (text : string)
| CtrlC.

(** The file email_sender.py: missing or with a content, and whether it can
    be opened for reading and for writing. *)
Record script_file : Type := {
  content : option string;
  can_read : bool;
  can_write : bool
}.

Record state : Type := {
  keys : list key;
  script : script_file
}.

(** What the run meets besides the keys and the script file: the error, if
    any, of printing each of the three lines with a pictograph (the success
    line of [update_email_script], and the lines "Setup complete!" and
    "Setup failed!" of [main]), and what is left in the file when writing a
    text into it fails after [open(script_path, 'w')] has emptied it
    ([None]: the write completes). *)
Record surroundings : Type := {
  print_updated : option error;
  print_complete : option error;
  print_failed : option error;
  write_stops : string -> option string
}.

Definition T (A : Type) : Type := state -> res A * state.

Definition unit_T {A} (a : A) : T A := fun st => (Ret a, st).

Definition bind_T {A B} (m : T A) (k : A -> T B) : T B :=
  fun st =>
    match m st with
    | (Ret a, st') => k a st'
    | (Raise e, st') => (Raise e, st')
    end.

Definition EOFError : exn := Error (OtherError "EOF when reading a line").

(** [input(prompt)] and [getpass.getpass(prompt)] *)
Definition input : T string :=
  fun st =>
    match keys st with
    | [] => (Raise EOFError, st)
    | Line text :: rest => (Ret text, {| keys := rest; script := script st |})
    | CtrlC :: rest => (Raise KeyboardInterrupt, {| keys := rest; script := script st |})
    end.

(** One entry of the dictionary [providers]. *)
Record provider : Type := {
  name : string;
  smtp_server : string;
  smtp_port : Z
}.

Definition gmail : provider :=
  {| name := "Gmail"; smtp_server := "smtp.gmail.com"; smtp_port := 587 |}.
Definition outlook : provider :=
  {| name := "Outlook/Hotmail"; smtp_server := "smtp-mail.outlook.com"; smtp_port := 587 |}.
Definition yahoo : provider :=
  {| name := "Yahoo Mail"; smtp_server := "smtp.mail.yahoo.com"; smtp_port := 587 |}.
Definition custom : provider :=
  {| name := "Custom SMTP"; smtp_server := ""; smtp_port := 587 |}.

(** [providers.get(choice)] *)
Definition providers (choice : string) : option provider :=
  if String.eqb choice "1" then Some gmail
  else if String.eqb choice "2" then Some outlook
  else if String.eqb choice "3" then Some yahoo
  else if String.eqb choice "4" then Some custom
  else None.

(** The loop of [get_smtp_settings] over the keys to come. *)
Fixpoint choose (ks : list key) : res provider * list key :=
  match ks with
  | [] => (Raise EOFError, [])
  | CtrlC :: rest => (Raise KeyboardInterrupt, rest)
  | Line text :: rest =>
      match providers (strip text) with
      | Some p => (Ret p, rest)
      | None => choose rest
      end
  end.

(** [get_smtp_settings] *)
Definition get_smtp_settings : T provider :=
  fun st =>
    let (r, rest) := choose (keys st) in
    (r, {| keys := rest; script := script st |}).

(** [c.lower()] on U+0000..U+00FF. *)
Definition lower_char (c : ascii) : ascii :=
  let n := nat_of_ascii c in
  if ((65 <=? n)%nat && (n <=? 90)%nat)
     || ((192 <=? n)%nat && (n <=? 222)%nat && negb (n =? 215)%nat)
  then ascii_of_nat (n + 32) else c.

Fixpoint lower (s : string) : string :=
  match s with
  | EmptyString => EmptyString
  | String c r => String (lower_char c) (lower r)
  end.

(** The digits of [int(text)]: decimal digits with single underscores
    between them. *)
Fixpoint digits_value (acc : Z) (after_digit : bool) (s : string) : option Z :=
  match s with
  | EmptyString => if after_digit then Some acc else None
  | String c r =>
      match Format.digitval c with
      | Some d => digits_value (acc * 10 + d) true r
      | None =>
          if Ascii.eqb c "_"%char && after_digit then digits_value acc false r
          else None
      end
  end.

(** [int(text)] for a text without white space around it; [None] stands for
    ValueError. *)
Definition py_int (s : string) : option Z :=
  match s with
  | String c r =>
      if Ascii.eqb c "+"%char then digits_value 0 false r
      else if Ascii.eqb c "-"%char then option_map Z.opp (digits_value 0 false r)
      else digits_value 0 false s
  | EmptyString => None
  end.

(** [str(n)] for an integer. *)
Definition str_int (n : Z) : string := NilZero.string_of_int (Z.to_int n).

(** [s.startswith(p)] *)
Fixpoint starts_with (p s : string) : bool :=
  match p with
  | EmptyString => true
  | String c p' =>
      match s with
      | String d s' => Ascii.eqb c d && starts_with p' s'
      | EmptyString => false
      end
  end.

(** [s.replace(old, new)] for a non-empty [old]: [skip] characters of a
    match are still to be dropped. *)
Fixpoint replace_from (old new : string) (skip : nat) (s : string) : string :=
  match s with
  | EmptyString => EmptyString
  | String c r =>
      match skip with
      | S k => replace_from old new k r
      | O =>
          if starts_with old s
          then new ++ replace_from old new (String.length old - 1) r
          else String c (replace_from old new 0 r)
      end
  end.

Definition replace (old new s : string) : string := replace_from old new 0 s.

(** [old in s] *)
Fixpoint occurs (old s : string) : bool :=
  starts_with old s
  || match s with
     | EmptyString => false
     | String _ r => occurs old r
     end.

(** The text [f.read()] returns for the stored characters: universal
    newlines turn a carriage return, with the line feed after it if there is
    one, into a line feed. *)
Fixpoint universal_newlines (s : string) : string :=
  match s with
  | EmptyString => EmptyString
  | String c r =>
      if Ascii.eqb c "013"%char then
        match r with
        | String d r' =>
            if Ascii.eqb d "010"%char
            then String "010"%char (universal_newlines r')
            else String "010"%char (universal_newlines r)
        | EmptyString => String "010"%char EmptyString
        end
      else String c (universal_newlines r)
  end.

(** The state with [text] in the script file. *)
Definition with_content (st : state) (text : string) : state :=
  {| keys := keys st;
     script := {| content := Some text;
                  can_read := can_read (script st);
                  can_write := can_write (script st) |} |}.

(** One of the lines with a pictograph. *)
Definition print_line (outcome : option error) : T unit :=
  fun st =>
    match outcome with
    | None => (Ret tt, st)
    | Some e => (Raise (Error e), st)
    end.

(** The five replacements of [update_email_script]. *)
Definition rewrite_config (server : string) (port : Z) (email pw sender_name : string)
    (text : string) : string :=
  let text := replace "'smtp_server': 'smtp.gmail.com'"
                ("'smtp_server': '" ++ server ++ "'") text in
  let text := replace "'smtp_port': 587" ("'smtp_port': " ++ str_int port) text in
  let text := replace "'sender_email': 'your_email@gmail.com'"
                ("'sender_email': '" ++ email ++ "'") text in
  let text := replace "'sender_password': 'your_app_password'"
                ("'sender_password': '" ++ pw ++ "'") text in
  replace "'sender_name': 'Your Name'" ("'sender_name': '" ++ sender_name ++ "'") text.

(** [update_email_script]: opening the file for writing empties it, so a
    write that fails leaves what it had written; the success line is printed
    inside the [try], after the file is written, and an error of this
    [print] is caught like any other. *)
Definition update_email_script (o : surroundings) (server : string) (port : Z)
    (email pw sender_name : string) : T bool :=
  fun st =>
    match content (script st) with
    | None => (Ret false, st)
    | Some stored =>
        if negb (can_read (script st)) then (Ret false, st)
        else
          let text := rewrite_config server port email pw sender_name
                        (universal_newlines stored) in
          if negb (can_write (script st)) then (Ret false, st)
          else
            match write_stops o text with
            | Some partial => (Ret false, with_content st partial)
            | None =>
                match print_updated o with
                | None => (Ret true, with_content st text)
                | Some _ => (Ret false, with_content st text)
                end
            end
    end.

(** The questions asked for the provider Custom SMTP. *)
Definition ask_custom (p : provider) : T (string * Z) :=
  if String.eqb (name p) "Custom SMTP" then
    bind_T input (fun server_text =>
    bind_T input (fun port_text =>
      let port_text := strip port_text in
      let port_text := if truthy port_text then port_text else "587" in
      unit_T (strip server_text,
              match py_int port_text with Some n => n | None => 587%Z end)))
  else unit_T (smtp_server p, smtp_port p).

(** [main]: the lines "Setup complete!" and "Setup failed!" are printed
    outside any [try]. *)
Definition main (o : surroundings) : T bool :=
  bind_T get_smtp_settings (fun p =>
  bind_T (ask_custom p) (fun server_port =>
  bind_T input (fun email_text =>
  bind_T input (fun name_text =>
  bind_T input (fun sender_password =>
    let server := fst server_port in
    let sender_email := strip email_text in
    let sender_name :=
      if truthy (strip name_text) then strip name_text else "Email Sender" in
    if negb (truthy server && truthy sender_email && truthy sender_password)
    then unit_T false
    else
      bind_T input (fun confirm_text =>
        if String.eqb (lower (strip confirm_text)) "y"
        then
          bind_T (update_email_script o server (snd server_port) sender_email
                    sender_password sender_name)
            (fun updated =>
               if updated
               then bind_T (print_line (print_complete o)) (fun _ => unit_T true)
               else bind_T (print_line (print_failed o)) (fun _ => unit_T false))
        else unit_T false)))))).

(** The exit status of the script: [sys.exit(0 if success else 1)], and 1
    from both handlers. *)
Definition exit_status (r : res bool) : Z :=
  match r with
  | Ret true => 0
  | Raise (SystemExit c) => c
  | _ => 1
  end.

(** A step that leaves the script file as it is. *)
Definition keeps_script {A} (m : T A) : Prop :=
  forall st, script (snd (m st)) = script st.

(** A step that leaves the script file as it is unless it returns [True]. *)
Definition writes_only_on_success (m : T bool) : Prop :=
  forall st, script (snd (m st)) = script st \/ fst (m st) = Ret true.

(** Every line with a pictograph is printed and every write completes. *)
Definition quiet : surroundings :=
  {| print_updated := None; print_complete := None; print_failed := None;
     write_stops := fun _ => None |}.

(** An output stream that cannot encode the pictographs. *)
Definition narrow_output : surroundings :=
  {| print_updated := Some (OtherError "'ascii' codec can't encode character");
     print_complete := Some (OtherError "'ascii' codec can't encode character");
     print_failed := Some (OtherError "'ascii' codec can't encode character");
     write_stops := fun _ => None |}.

(** A script after a first setup, stored with DOS line ends. *)
Definition configured_script : string :=
  ("EMAIL_CONFIG = {" ++ String "013"%char (String "010"%char EmptyString)
     ++ "'smtp_port': 465}" ++ String "013"%char (String "010"%char EmptyString))%string.

(** None of the five placeholders occurs in the text. *)
Definition no_placeholder (text : string) : Prop :=
  occurs "'smtp_server': 'smtp.gmail.com'" text = false
  /\ occurs "'smtp_port': 587" text = false
  /\ occurs "'sender_email': 'your_email@gmail.com'" text = false
  /\ occurs "'sender_password': 'your_app_password'" text = false
  /\ occurs "'sender_name': 'Your Name'" text = false.

End ConfigSetup.

(** * Properties *)

(** ** The effect monad *)

Module EffFacts.
Import Py Eff.

Lemma to_res_no_exit A (r : reply A) c : to_res r <> Raise (SystemExit c).
Proof. destruct r; discriminate. Qed.

Section Emits.
Variable Q : event -> bool.

Lemma emits_ret A (a : A) : emits Q (ret a).
Proof. intros w h. exists []. rewrite app_nil_r. auto. Qed.

Lemma emits_raise A e : emits Q (@raise A e).
Proof. intros w h. exists []. rewrite app_nil_r. auto. Qed.

Lemma emits_request A ev (answer : world -> history -> reply A) :
  Q ev = true -> emits Q (request ev answer).
Proof. intros HQ w h. exists [ev]. simpl. rewrite HQ. auto. Qed.

Lemma emits_query A ev (answer : world -> history -> A) :
  Q ev = true -> emits Q (query ev answer).
Proof. intros HQ w h. exists [ev]. simpl. rewrite HQ. auto. Qed.

Lemma emits_bind A B (m : M A) (k : A -> M B) :
  emits Q m -> (forall a, emits Q (k a)) -> emits Q (bind m k).
Proof.
  intros Hm Hk w h. unfold bind.
  destruct (Hm w h) as (t & Ht & HQ). destruct (m w h) as [[a|e] h1]; simpl in Ht; subst.
  - destruct (Hk a w (h ++ t)) as (t' & Ht' & HQ').
    exists (t ++ t'). rewrite Ht', app_assoc, forallb_app, HQ, HQ'. auto.
  - exists t. auto.
Qed.

Lemma emits_try A (m : M A) catches handler :
  emits Q m -> (forall e, emits Q (handler e)) -> emits Q (try_except m catches handler).
Proof.
  intros Hm Hk w h. unfold try_except.
  destruct (Hm w h) as (t & Ht & HQ). destruct (m w h) as [[a|e] h1]; simpl in Ht; subst.
  - exists t. auto.
  - destruct (catches e); [|exists t; auto].
    destruct (Hk e w (h ++ t)) as (t' & Ht' & HQ').
    exists (t ++ t'). rewrite Ht', app_assoc, forallb_app, HQ, HQ'. auto.
Qed.

End Emits.

Section Exits.
Variable P : Z -> Prop.

Lemma exits_ret A (a : A) : exits_with P (ret a).
Proof. intros w h c. discriminate. Qed.

Lemma exits_raise_Error A e : exits_with P (@raise A (Error e)).
Proof. intros w h c. discriminate. Qed.

Lemma exits_sys_exit A c : P c -> exits_with P (@raise A (SystemExit c)).
Proof. intros HP w h c' H. inversion H; subst. assumption. Qed.

Lemma exits_request A ev (answer : world -> history -> reply A) :
  exits_with P (request ev answer).
Proof. intros w h c H. simpl in H. apply to_res_no_exit in H. contradiction. Qed.

Lemma exits_query A ev (answer : world -> history -> A) :
  exits_with P (query ev answer).
Proof. intros w h c. discriminate. Qed.

Lemma exits_bind A B (m : M A) (k : A -> M B) :
  exits_with P m -> (forall a, exits_with P (k a)) -> exits_with P (bind m k).
Proof.
  intros Hm Hk w h c. unfold bind. specialize (Hm w h c).
  destruct (m w h) as [[a|e] h1]; simpl in *.
  - apply (Hk a).
  - intros H. apply Hm. inversion H. reflexivity.
Qed.

Lemma exits_try A (m : M A) catches handler :
  exits_with P m -> (forall e, exits_with P (handler e)) ->
  exits_with P (try_except m catches handler).
Proof.
  intros Hm Hk w h c. unfold try_except. specialize (Hm w h c).
  destruct (m w h) as [[a|e] h1]; simpl in *; [discriminate|].
  destruct (catches e); simpl.
  - apply (Hk e).
  - exact Hm.
Qed.

(** A handler that logs and raises again. *)
Lemma exits_reraise A (m : M A) :
  exits_with P m -> exits_with P (try_except m is_Exception (fun e => raise e)).
Proof.
  intros Hm w h c. unfold try_except, raise. specialize (Hm w h c).
  destruct (m w h) as [[a|e] h1]; simpl in *; [discriminate|].
  destruct (is_Exception e); exact Hm.
Qed.

End Exits.

(** Local events are neither transport events nor reads of the list. *)
Lemma forallb_local_transport t :
  forallb is_local t = true -> filter is_transport t = [] /\ filter is_read_lines t = [].
Proof.
  induction t as [|e t IH]; simpl; auto.
  unfold is_local at 1. intros H.
  apply andb_true_iff in H. destruct H as [He Ht].
  apply andb_true_iff in He. destruct He as [H1 H2].
  apply negb_true_iff in H1, H2. rewrite H1, H2. auto.
Qed.

End EffFacts.

(** ** Runs of [send_file] *)

Module DeliveryFacts.
Import Py Eff FileDelivery.

Section Loop.
Variable w : world.
Variable self : FileDeliveryService.
Variable file_path : string.
Variables subject body : option string.

Local Notation "'message_for'" := (message_for self file_path subject body).
Local Notation "'events_of'" := (events_of self file_path subject body).
Local Notation "'Attempts'" := (Attempts w self file_path subject body).
Local Notation "'agrees'" := (agrees w self file_path subject body).

(** What [send_one] does, by the answers of the world. *)
Lemma send_one_run recipient h :
  send_one self file_path subject body recipient w h =
  match read_bytes w h file_path with
  | Ok data =>
      (to_res (smtp_sendmail w (h ++ [EvReadBytes file_path]) (from_addr self)
                 recipient (message_for recipient data)),
       h ++ [EvReadBytes file_path;
             EvSendmail (from_addr self) recipient (message_for recipient data)])
  | Fails e => (Raise (Error e), h ++ [EvReadBytes file_path])
  | Interrupt => (Raise KeyboardInterrupt, h ++ [EvReadBytes file_path])
  end.
Proof.
  unfold send_one, create_email_message, bind, try_except, request, ret, raise.
  destruct (read_bytes w h file_path); simpl; try reflexivity.
  rewrite <- app_assoc. reflexivity.
Qed.

(** One turn of the loop either records an attempt or is interrupted. *)
Lemma iteration_run recipient results h :
  let turn :=
    try_except
      (bind (send_one self file_path subject body recipient)
         (fun _ => ret (add_successful results recipient)))
      is_Exception
      (fun e => ret (add_failed results recipient (str_exn e))) in
  (exists a, fst a = recipient /\ agrees h a
             /\ turn w h = (Ret (record_attempt results a), h ++ events_of a))
  \/ (exists h', turn w h = (Raise KeyboardInterrupt, h')
                 /\ (read_bytes w h file_path = Interrupt
                     \/ exists s r m, smtp_sendmail w (h ++ [EvReadBytes file_path]) s r m
                                      = Interrupt)).
Proof.
  intros turn. unfold turn, try_except, bind. rewrite send_one_run.
  destruct (read_bytes w h file_path) as [data|e|] eqn:Hread.
  - destruct (smtp_sendmail w (h ++ [EvReadBytes file_path]) (from_addr self)
                recipient (message_for recipient data)) as [[]|e|] eqn:Hsend; simpl.
    + left. exists (recipient, Sent data). unfold agrees, events_of, record_attempt. simpl.
      rewrite Hread, Hsend. auto.
    + left. exists (recipient, SendFailed data e).
      unfold agrees, events_of, record_attempt. simpl. rewrite Hread, Hsend. auto.
    + right. eexists. split; [reflexivity|]. right. eauto.
  - left. exists (recipient, ComposeFailed e).
    unfold agrees, events_of, record_attempt. simpl. rewrite Hread. auto.
  - right. eexists. split; [reflexivity|]. left. reflexivity.
Qed.

(** Without interrupts the loop makes one attempt per recipient, in the order
    of the list, and returns the report of these attempts. *)
Lemma send_loop_run (Herr : errors_only w) delivery_list :
  forall results h,
  exists atts,
    map fst atts = delivery_list
    /\ Attempts h atts
    /\ send_loop self file_path subject body delivery_list results w h
       = (Ret (report_of results atts), h ++ flat_map events_of atts).
Proof.
  induction delivery_list as [|recipient rest IH]; intros results h.
  - exists []. simpl. rewrite app_nil_r. repeat split. constructor.
  - destruct (iteration_run recipient results h) as [(a & Ha & Hag & Hrun)|(h' & _ & Hint)].
    + destruct (IH (record_attempt results a) (h ++ events_of a))
        as (atts & Hmap & Hatts & Hloop).
      exists (a :: atts). split; [simpl; congruence|].
      split; [constructor; assumption|].
      cbn [send_loop]. unfold bind at 1. rewrite Hrun, Hloop.
      cbn [flat_map report_of fold_left]. rewrite app_assoc. reflexivity.
    + exfalso. destruct Herr as [Hb Hs].
      destruct Hint as [Hi|(s & r & m & Hi)]; [eapply Hb|eapply Hs]; eassumption.
Qed.

(** Whatever the world answers, a loop that returns has sorted every
    recipient into one of the two lists. *)
Lemma send_loop_counts delivery_list :
  forall results h r h',
    send_loop self file_path subject body delivery_list results w h = (Ret r, h') ->
    (List.length (successful r) + List.length (failed r)
     = List.length (successful results) + List.length (failed results)
       + List.length delivery_list)%nat
    /\ total r = total results.
Proof.
  induction delivery_list as [|recipient rest IH]; intros results h r h' Hrun.
  - simpl in Hrun. unfold ret in Hrun. inversion Hrun; subst. simpl. lia.
  - cbn [send_loop] in Hrun. unfold bind at 1 in Hrun.
    destruct (iteration_run recipient results h) as [(a & Ha & Hag & Hturn)|(h1 & Hturn & _)];
      rewrite Hturn in Hrun; [|discriminate].
    apply IH in Hrun. destruct Hrun as [Hlen Htot]. rewrite Hlen, Htot.
    unfold record_attempt. destruct (snd a); simpl; rewrite ?length_app; simpl; lia.
Qed.

End Loop.

(** The report of a list of attempts, field by field. *)
Lemma report_of_fields atts :
  forall r,
    successful (report_of r atts) = successful r ++ map fst (filter succeeded atts)
    /\ failed (report_of r atts)
       = failed r ++ flat_map (fun a => match failure_of a with
                                        | Some f => [f]
                                        | None => []
                                        end) atts
    /\ total (report_of r atts) = total r.
Proof.
  induction atts as [|a atts IH]; intros r; simpl.
  - rewrite !app_nil_r. auto.
  - destruct (IH (record_attempt r a)) as (Hs & Hf & Ht).
    unfold report_of in *. rewrite Hs, Hf, Ht.
    unfold record_attempt, succeeded, failure_of.
    destruct a as [recipient [e|d e|d]]; simpl; rewrite <- ?app_assoc; auto.
Qed.

Lemma events_of_not_quit self file_path subject body atts :
  filter is_quit (flat_map (events_of self file_path subject body) atts) = [].
Proof.
  induction atts as [|[r [e|d e|d]] atts IH]; simpl; auto.
Qed.

Lemma events_of_not_connect self file_path subject body atts :
  filter is_connect (flat_map (events_of self file_path subject body) atts) = [].
Proof.
  induction atts as [|[r [e|d e|d]] atts IH]; simpl; auto.
Qed.

Lemma events_of_reads self file_path subject body atts :
  filter is_read_bytes (flat_map (events_of self file_path subject body) atts)
  = repeat (EvReadBytes file_path) (List.length atts).
Proof.
  induction atts as [|[r [e|d e|d]] atts IH]; simpl; rewrite ?IH; auto.
Qed.

Lemma configured_check self :
  configured self ->
  negb (truthy_opt (sender_email self)) || negb (truthy_opt (sender_password self))
  = false.
Proof. intros [-> ->]. reflexivity. Qed.

(** A run of [send_file] whose session opens and whose recipients fail with
    errors only: the events are the opening, the attempts, and [quit]. *)
Lemma send_file_run w self file_path delivery_list subject body h :
  configured self -> opens w self h -> errors_only w ->
  exists atts,
    map fst atts = delivery_list
    /\ Attempts w self file_path subject body (h ++ open_events self) atts
    /\ send_file self file_path delivery_list subject body w h
       = (match smtp_quit w (h ++ open_events self
                               ++ flat_map (events_of self file_path subject body) atts) with
          | Ok _ => Ret (report_of {| successful := []; failed := [];
                                      total := List.length delivery_list |} atts)
          | Fails e => Raise (Error e)
          | Interrupt => Raise KeyboardInterrupt
          end,
          h ++ open_events self
            ++ flat_map (events_of self file_path subject body) atts ++ [EvQuit]).
Proof.
  intros Hcfg (Hc & Ht & Hl) Herr.
  destruct (send_loop_run self file_path subject body Herr delivery_list
              {| successful := []; failed := []; total := List.length delivery_list |}
              (h ++ open_events self)) as (atts & Hmap & Hatts & Hloop).
  exists atts. split; [assumption|]. split; [assumption|].
  unfold send_file. rewrite (configured_check Hcfg).
  unfold try_except, bind, request.
  rewrite Hc. cbn [to_res]. rewrite Ht. cbn [to_res].
  replace ((h ++ [EvConnect (smtp_server self) (smtp_port self)]) ++ [EvStartTLS])
    with (h ++ [EvConnect (smtp_server self) (smtp_port self); EvStartTLS])
    by (rewrite <- app_assoc; reflexivity).
  rewrite Hl. cbn [to_res].
  replace ((h ++ [EvConnect (smtp_server self) (smtp_port self); EvStartTLS])
             ++ [EvLogin (from_addr self) (password self)])
    with (h ++ open_events self) by (rewrite <- app_assoc; reflexivity).
  rewrite Hloop. rewrite <- !app_assoc.
  destruct (smtp_quit w (h ++ open_events self
                           ++ flat_map (events_of self file_path subject body) atts));
    reflexivity.
Qed.

(** Any run of [send_file] that returns a report went through the loop. *)
Lemma send_file_returns_loop w self file_path delivery_list subject body h r h' :
  send_file self file_path delivery_list subject body w h = (Ret r, h') ->
  exists h1 h2,
    send_loop self file_path subject body delivery_list
      {| successful := []; failed := []; total := List.length delivery_list |} w h1
    = (Ret r, h2).
Proof.
  unfold send_file.
  destruct (negb (truthy_opt (sender_email self))
            || negb (truthy_opt (sender_password self))); [discriminate|].
  unfold try_except, bind, request, ret, raise.
  destruct (smtp_connect w h (smtp_server self) (smtp_port self)); cbn [to_res];
    try discriminate.
  destruct (smtp_starttls w _); cbn [to_res]; try discriminate.
  destruct (smtp_login w _ _ _); cbn [to_res]; try discriminate.
  match goal with
  | |- context [send_loop ?a ?b ?c ?d ?e ?f ?g ?hh] =>
      destruct (send_loop a b c d e f g hh) as [[r0|e0] h2] eqn:Hloop
  end.
  - destruct (smtp_quit w h2); cbn [to_res]; intros H; inversion H; subst.
    eauto.
  - destruct (is_Exception e0); discriminate.
Qed.

(** The counting invariant of every returned report. *)
Lemma send_file_counts w self file_path delivery_list subject body h r h' :
  send_file self file_path delivery_list subject body w h = (Ret r, h') ->
  (List.length (successful r) + List.length (failed r))%nat = total r
  /\ total r = List.length delivery_list.
Proof.
  intros Hrun.
  destruct (send_file_returns_loop _ _ _ _ _ _ _ Hrun) as (h1 & h2 & Hloop).
  apply send_loop_counts in Hloop. simpl in Hloop. destruct Hloop as [Hlen Htot].
  rewrite Hlen, Htot. auto.
Qed.

(** The report of the attempts, written out. *)
Lemma report_of_attempts n atts :
  report_of {| successful := []; failed := []; total := n |} atts
  = {| successful := map fst (filter succeeded atts);
       failed := flat_map (fun a => match failure_of a with
                                    | Some f => [f]
                                    | None => []
                                    end) atts;
       total := n |}.
Proof.
  destruct (report_of_fields atts {| successful := []; failed := []; total := n |})
    as (Hs & Hf & Ht).
  destruct (report_of _ atts) as [s f t]. simpl in *. congruence.
Qed.

(** Every attempt that was not sent leaves one entry in [failed]. *)
Lemma failures_length atts :
  List.length (flat_map (fun a => match failure_of a with
                                  | Some f => [f]
                                  | None => []
                                  end) atts)
  = List.length (filter (fun a => negb (succeeded a)) atts).
Proof.
  induction atts as [|[r [e|d e|d]] atts IH]; simpl; auto.
Qed.

Lemma succeeded_or_not atts :
  (List.length (filter succeeded atts)
   + List.length (filter (fun a => negb (succeeded a)) atts))%nat
  = List.length atts.
Proof.
  induction atts as [|[r [e|d e|d]] atts IH]; simpl; lia.
Qed.

End DeliveryFacts.

(** ** The claims about [send_file] *)

Module DeliveryClaims.
Import Py Eff FileDelivery DeliveryFacts.

(** C2.  For every delivery list and every pattern of per-recipient successes
    and failures, [send_file] returns a report with
    [len(successful) + len(failed) == total], where [total] is the number of
    recipients attempted: the run makes one attempt per recipient of the list,
    each attempt starts with one read of the file and agrees with what the
    world answers, [successful] counts the attempts that were sent, [failed]
    those that were not, and [total] counts the attempts and the reads. *)
Theorem send_file_report_total w self file_path delivery_list subject body h :
  configured self -> opens w self h -> errors_only w ->
  (forall h', smtp_quit w h' = Ok tt) ->
  exists atts r,
    Attempts w self file_path subject body (h ++ open_events self) atts
    /\ map fst atts = delivery_list
    /\ send_file self file_path delivery_list subject body w h
       = (Ret r, h ++ open_events self
                   ++ flat_map (events_of self file_path subject body) atts ++ [EvQuit])
    /\ List.length (successful r) = List.length (filter succeeded atts)
    /\ List.length (failed r)
       = List.length (filter (fun a => negb (succeeded a)) atts)
    /\ (List.length (successful r) + List.length (failed r))%nat = total r
    /\ total r = List.length atts
    /\ total r
       = List.length (filter is_read_bytes
                        (flat_map (events_of self file_path subject body) atts)).
Proof.
  intros Hcfg Hopen Herr Hquit.
  destruct (send_file_run file_path delivery_list subject body Hcfg Hopen Herr)
    as (atts & Hmap & Hatts & Hrun).
  rewrite Hquit, report_of_attempts in Hrun.
  exists atts. eexists. split; [exact Hatts|]. split; [exact Hmap|].
  split; [exact Hrun|]. cbn [successful failed total].
  assert (Hlen : List.length delivery_list = List.length atts)
    by (rewrite <- Hmap; apply length_map).
  rewrite length_map, failures_length, events_of_reads, repeat_length.
  repeat split; try assumption.
  rewrite Hlen. apply succeeded_or_not.
Qed.

Lemma send_file_report_total_witness :
  exists atts r,
    Attempts (Worlds.make Worlds.three Worlds.same_bytes Worlds.reject_r2)
      Worlds.service "/srv/report.pdf" None None
      ([] ++ open_events Worlds.service) atts
    /\ map fst atts = ["r1@x.com"; "r2@x.com"; "r3@x.com"]
    /\ send_file Worlds.service "/srv/report.pdf" ["r1@x.com"; "r2@x.com"; "r3@x.com"]
         None None (Worlds.make Worlds.three Worlds.same_bytes Worlds.reject_r2) []
       = (Ret r, [] ++ open_events Worlds.service
                   ++ flat_map (events_of Worlds.service "/srv/report.pdf" None None) atts
                   ++ [EvQuit])
    /\ List.length (successful r) = List.length (filter succeeded atts)
    /\ List.length (failed r)
       = List.length (filter (fun a => negb (succeeded a)) atts)
    /\ (List.length (successful r) + List.length (failed r))%nat = total r
    /\ total r = List.length atts
    /\ total r
       = List.length (filter is_read_bytes
                        (flat_map (events_of Worlds.service "/srv/report.pdf" None None)
                           atts)).
Proof.
  apply (@send_file_report_total
           (Worlds.make Worlds.three Worlds.same_bytes Worlds.reject_r2)
           Worlds.service "/srv/report.pdf" ["r1@x.com"; "r2@x.com"; "r3@x.com"]
           None None []).
  - split; reflexivity.
  - repeat split.
  - split; intros; simpl; [discriminate|].
    unfold Worlds.reject_r2. destruct (String.eqb r "r2@x.com"); discriminate.
  - reflexivity.
Defined.

(** C3.  When sending to a recipient fails, in composing or in transmitting,
    [send_file] goes on: there is one attempt for every recipient, in the
    order of the list, each failure is entered in [failed] and each success in
    [successful], and the batch ends with [quit]. *)
Theorem send_file_continues_after_failure w self file_path delivery_list subject body h :
  configured self -> opens w self h -> errors_only w ->
  (forall h', smtp_quit w h' = Ok tt) ->
  exists atts,
    map fst atts = delivery_list
    /\ Attempts w self file_path subject body (h ++ open_events self) atts
    /\ send_file self file_path delivery_list subject body w h
       = (Ret {| successful := map fst (filter succeeded atts);
                 failed := flat_map (fun a => match failure_of a with
                                              | Some f => [f]
                                              | None => []
                                              end) atts;
                 total := List.length delivery_list |},
          h ++ open_events self
            ++ flat_map (events_of self file_path subject body) atts ++ [EvQuit]).
Proof.
  intros Hcfg Hopen Herr Hquit.
  destruct (send_file_run file_path delivery_list subject body Hcfg Hopen Herr)
    as (atts & Hmap & Hatts & Hrun).
  exists atts. split; [assumption|]. split; [assumption|].
  rewrite Hrun, Hquit, report_of_attempts. reflexivity.
Qed.

Lemma send_file_continues_after_failure_witness :
  exists atts,
    map fst atts = ["r1@x.com"; "r2@x.com"; "r3@x.com"]
    /\ Attempts (Worlds.make Worlds.three Worlds.same_bytes Worlds.reject_r2)
         Worlds.service "/srv/report.pdf" None None ([] ++ open_events Worlds.service) atts
    /\ send_file Worlds.service "/srv/report.pdf" ["r1@x.com"; "r2@x.com"; "r3@x.com"]
         None None (Worlds.make Worlds.three Worlds.same_bytes Worlds.reject_r2) []
       = (Ret {| successful := map fst (filter succeeded atts);
                 failed := flat_map (fun a => match failure_of a with
                                              | Some f => [f]
                                              | None => []
                                              end) atts;
                 total := 3 |},
          [] ++ open_events Worlds.service
            ++ flat_map (events_of Worlds.service "/srv/report.pdf" None None) atts
            ++ [EvQuit]).
Proof.
  apply (@send_file_continues_after_failure
           (Worlds.make Worlds.three Worlds.same_bytes Worlds.reject_r2)
           Worlds.service "/srv/report.pdf" ["r1@x.com"; "r2@x.com"; "r3@x.com"]
           None None []).
  - split; reflexivity.
  - repeat split.
  - split; intros; simpl; [discriminate|].
    unfold Worlds.reject_r2. destruct (String.eqb r "r2@x.com"); discriminate.
  - reflexivity.
Defined.

(** Scenario C of the specification: the second of three recipients is
    rejected, the third is still served. *)
Example scenario_C :
  fst (run (send_file Worlds.service "/srv/report.pdf"
              ["r1@x.com"; "r2@x.com"; "r3@x.com"] None None)
         (Worlds.make Worlds.three Worlds.same_bytes Worlds.reject_r2))
  = Ret {| successful := ["r1@x.com"; "r3@x.com"];
           failed := [("r2@x.com", "recipient refused")];
           total := 3 |}.
Proof. reflexivity. Qed.

(** C4, as the code has it.  When the session opened and the recipients meet
    errors only, [quit] is requested exactly once, as the last request of
    [send_file], however many sends failed and whatever [quit] answers. *)
Theorem send_file_quits_once w self file_path delivery_list subject body h :
  configured self -> opens w self h -> errors_only w ->
  exists t,
    snd (send_file self file_path delivery_list subject body w h) = h ++ t ++ [EvQuit]
    /\ filter is_quit t = []
    /\ filter is_connect t = [EvConnect (smtp_server self) (smtp_port self)].
Proof.
  intros Hcfg Hopen Herr.
  destruct (send_file_run file_path delivery_list subject body Hcfg Hopen Herr)
    as (atts & _ & _ & Hrun).
  exists (open_events self ++ flat_map (events_of self file_path subject body) atts).
  rewrite Hrun. cbn [snd]. rewrite <- !app_assoc. split; [reflexivity|].
  rewrite !filter_app, events_of_not_quit, events_of_not_connect.
  split; reflexivity.
Qed.

Lemma send_file_quits_once_witness :
  exists t,
    snd (send_file Worlds.service "/srv/report.pdf" ["r1@x.com"; "r2@x.com"; "r3@x.com"]
           None None (Worlds.make Worlds.three Worlds.same_bytes Worlds.reject_r2) [])
    = [] ++ t ++ [EvQuit]
    /\ filter is_quit t = []
    /\ filter is_connect t = [EvConnect "mail.x.com" 587].
Proof.
  apply (@send_file_quits_once
           (Worlds.make Worlds.three Worlds.same_bytes Worlds.reject_r2)
           Worlds.service "/srv/report.pdf" ["r1@x.com"; "r2@x.com"; "r3@x.com"]
           None None []).
  - split; reflexivity.
  - repeat split.
  - split; intros; simpl; [discriminate|].
    unfold Worlds.reject_r2. destruct (String.eqb r "r2@x.com"); discriminate.
Defined.

(** C4 fails as stated: the session opens, the user interrupts the first
    transmission, and [send_file] is left through both [except Exception]
    clauses without any [quit]. *)
Lemma send_file_interrupted_never_quits :
  let w := Worlds.make Worlds.two Worlds.same_bytes Worlds.interrupt_send in
  let result := run (send_file Worlds.service "/srv/report.pdf"
                       ["r1@x.com"; "r2@x.com"] None None) w in
  opens w Worlds.service []
  /\ fst result = Raise KeyboardInterrupt
  /\ filter is_connect (snd result) = [EvConnect "mail.x.com" 587]
  /\ filter is_quit (snd result) = [].
Proof. repeat split. Qed.

(** C7, as the code has it.  [send_file] reads the file once for each
    recipient, inside the loop, and the message of a recipient carries the
    bytes of its own read. *)
Theorem send_file_reads_per_recipient w self file_path delivery_list subject body h :
  configured self -> opens w self h -> errors_only w ->
  exists atts,
    map fst atts = delivery_list
    /\ Attempts w self file_path subject body (h ++ open_events self) atts
    /\ snd (send_file self file_path delivery_list subject body w h)
       = h ++ open_events self
           ++ flat_map (events_of self file_path subject body) atts ++ [EvQuit]
    /\ filter is_read_bytes
         (open_events self
            ++ flat_map (events_of self file_path subject body) atts ++ [EvQuit])
       = repeat (EvReadBytes file_path) (List.length delivery_list).
Proof.
  intros Hcfg Hopen Herr.
  destruct (send_file_run file_path delivery_list subject body Hcfg Hopen Herr)
    as (atts & Hmap & Hatts & Hrun).
  exists atts. split; [assumption|]. split; [assumption|].
  rewrite Hrun. split; [reflexivity|].
  rewrite !filter_app, events_of_reads. simpl. rewrite app_nil_r.
  rewrite <- Hmap, length_map. reflexivity.
Qed.

Lemma send_file_reads_per_recipient_witness :
  exists atts,
    map fst atts = ["r1@x.com"; "r2@x.com"]
    /\ Attempts (Worlds.make Worlds.two Worlds.same_bytes Worlds.reject_r2)
         Worlds.service "/srv/report.pdf" None None ([] ++ open_events Worlds.service) atts
    /\ snd (send_file Worlds.service "/srv/report.pdf" ["r1@x.com"; "r2@x.com"]
              None None (Worlds.make Worlds.two Worlds.same_bytes Worlds.reject_r2) [])
       = [] ++ open_events Worlds.service
           ++ flat_map (events_of Worlds.service "/srv/report.pdf" None None) atts
           ++ [EvQuit]
    /\ filter is_read_bytes
         (open_events Worlds.service
            ++ flat_map (events_of Worlds.service "/srv/report.pdf" None None) atts
            ++ [EvQuit])
       = repeat (EvReadBytes "/srv/report.pdf") 2.
Proof.
  apply (@send_file_reads_per_recipient
           (Worlds.make Worlds.two Worlds.same_bytes Worlds.reject_r2)
           Worlds.service "/srv/report.pdf" ["r1@x.com"; "r2@x.com"] None None []).
  - split; reflexivity.
  - repeat split.
  - split; intros; simpl; [discriminate|].
    unfold Worlds.reject_r2. destruct (String.eqb r "r2@x.com"); discriminate.
Defined.

(** C7 fails as stated: with two recipients the file is read twice, and when
    it is rewritten between the reads the two messages carry different
    payloads. *)
Lemma send_file_rereads_the_file :
  let w := Worlds.make Worlds.two Worlds.changing_bytes Worlds.accept_all in
  let trace := snd (run (send_file Worlds.service "/srv/report.pdf"
                           ["r1@x.com"; "r2@x.com"] None None) w) in
  filter is_read_bytes trace
  = [EvReadBytes "/srv/report.pdf"; EvReadBytes "/srv/report.pdf"]
  /\ flat_map (fun e => match e with
                        | EvSendmail _ r m => [(r, payloads m)]
                        | _ => []
                        end) trace
     = [("r1@x.com", ["version 1"]); ("r2@x.com", ["version 2"])].
Proof. split; reflexivity. Qed.

(** C10.  When [sender_email] or [sender_password] is [None] or empty,
    [send_file] raises ValueError before any request: no report, no event. *)
Theorem send_file_requires_credentials w self file_path delivery_list subject body h :
  truthy_opt (sender_email self) = false \/ truthy_opt (sender_password self) = false ->
  send_file self file_path delivery_list subject body w h
  = (Raise (Error (ValueError
       "Email credentials not configured. Use configure_email() method.")), h).
Proof.
  intros H. unfold send_file.
  replace (negb (truthy_opt (sender_email self))
           || negb (truthy_opt (sender_password self))) with true; [reflexivity|].
  destruct H as [-> | ->]; simpl; auto using orb_true_r.
Qed.

Lemma send_file_requires_credentials_witness :
  send_file (init "smtp.gmail.com" 587) "/srv/report.pdf" ["r1@x.com"] None None
    Worlds.calm []
  = (Raise (Error (ValueError
       "Email credentials not configured. Use configure_email() method.")), []).
Proof.
  apply (@send_file_requires_credentials Worlds.calm (init "smtp.gmail.com" 587)
           "/srv/report.pdf" ["r1@x.com"] None None []).
  left. reflexivity.
Defined.

End DeliveryClaims.

(** ** Runs of the two [main] functions *)

Module MainFacts.
Import Py Eff EffFacts.

Ltac emits_step :=
  lazymatch goal with
  | |- emits _ (if ?b then _ else _) => destruct b
  | |- emits _ (match ?x with _ => _ end) => destruct x
  | |- emits _ (try_except _ _ _) => apply emits_try
  | |- emits _ (bind _ _) => apply emits_bind
  | |- emits _ (ret _) => apply emits_ret
  | |- emits _ (raise _) => apply emits_raise
  | |- emits _ (request _ _) => apply emits_request; reflexivity
  | |- emits _ (query _ _) => apply emits_query; reflexivity
  | |- emits _ _ => fail
  | |- forall _, _ => intro
  end.

Ltac exits_step :=
  lazymatch goal with
  | |- exits_with _ (if ?b then _ else _) => destruct b
  | |- exits_with _ (match ?x with _ => _ end) => destruct x
  | |- exits_with _ (try_except _ is_Exception (fun e => raise e)) => apply exits_reraise
  | |- exits_with _ (try_except _ _ _) => apply exits_try
  | |- exits_with _ (bind _ _) => apply exits_bind
  | |- exits_with _ (ret _) => apply exits_ret
  | |- exits_with _ (raise (Error _)) => apply exits_raise_Error
  | |- exits_with _ (raise (SystemExit _)) => apply exits_sys_exit; reflexivity
  | |- exits_with _ (request _ _) => apply exits_request
  | |- exits_with _ (query _ _) => apply exits_query
  | |- exits_with _ _ => fail
  | |- forall _, _ => intro
  end.

Section FileDeliveryMain.
Import FileDelivery.

Lemma main_service_local args : emits is_local (main_service args).
Proof. unfold main_service, load_config. repeat emits_step. Qed.

Lemma main_service_no_exit args : exits_with (fun _ => False) (main_service args).
Proof. unfold main_service, load_config. repeat exits_step. Qed.

Lemma validate_file_local self p : emits is_local (validate_file self p).
Proof. unfold validate_file. repeat emits_step. Qed.

Lemma validate_file_no_exit self p : exits_with (fun _ => False) (validate_file self p).
Proof. unfold validate_file. repeat exits_step. Qed.

(** [load_delivery_list], by the answer of the world. *)
Lemma load_delivery_list_run self path w h :
  load_delivery_list self path w h
  = (match read_lines w h path with
     | Ok lines => Ret (collect_emails lines)
     | Fails e => Raise (Error e)
     | Interrupt => Raise KeyboardInterrupt
     end, h ++ [EvReadLines path]).
Proof.
  unfold load_delivery_list, try_except, bind, request, ret, raise.
  destruct (read_lines w h path); reflexivity.
Qed.




(** A file that is missing, not a regular file, or unreadable. *)
Lemma validate_file_invalid w p :
  (forall h, path_exists w h p = false)
  \/ (forall h, path_isfile w h p = false)
  \/ (forall h, exists e, open_read w h p = Fails e) ->
  forall self h,
  exists t, validate_file self p w h = (Ret false, h ++ t) /\ forallb is_local t = true.
Proof.
  intros H self h. unfold validate_file, bind, query, try_except, request, ret.
  destruct (path_exists w h p) eqn:He; cbn [negb].
  2:{ exists [EvPathExists p]. auto. }
  destruct (path_isfile w (h ++ [EvPathExists p]) p) eqn:Hf; cbn [negb].
  2:{ exists [EvPathExists p; EvIsFile p]. rewrite <- app_assoc. auto. }
  destruct H as [H|[H|H]]; [rewrite H in He; discriminate|rewrite H in Hf; discriminate|].
  destruct (H ((h ++ [EvPathExists p]) ++ [EvIsFile p])) as (e & ->). simpl.
  exists [EvPathExists p; EvIsFile p; EvOpenRead p]. rewrite <- !app_assoc. auto.
Qed.

End FileDeliveryMain.

Section EmailSenderMain.
Import EmailSender.

(** [load_recipients], by the answer of the world. *)
Lemma load_recipients_run path w h :
  load_recipients path w h
  = (match read_lines w h path with
     | Ok lines =>
         match select_recipients lines with
         | [] => Raise no_recipients_error
         | r :: rs => Ret (r :: rs)
         end
     | Fails e => Raise (Error e)
     | Interrupt => Raise KeyboardInterrupt
     end, h ++ [EvReadLines path]).
Proof.
  unfold load_recipients, try_except, bind, request, ret, raise.
  destruct (read_lines w h path) as [lines|e|]; try reflexivity.
  cbn [to_res]. destruct (select_recipients lines); reflexivity.
Qed.

Lemma load_recipients_no_exit P path : exits_with P (load_recipients path).
Proof.
  intros w h c. rewrite load_recipients_run. cbn [fst].
  destruct (read_lines w h path) as [lines|e|]; try discriminate.
  destruct (select_recipients lines); discriminate.
Qed.

Lemma get_files_no_exit P folder : exits_with P (get_files_to_send folder).
Proof. unfold get_files_to_send. repeat exits_step. Qed.

Lemma attach_all_no_exit P files : forall msg, exits_with P (attach_all msg files).
Proof.
  induction files as [|f rest IH]; intros msg; cbn [attach_all].
  - apply exits_ret.
  - unfold attach_file_to_email. repeat exits_step. apply IH.
Qed.

Lemma send_email_no_exit P server port sender pw msg :
  exits_with P (send_email server port sender pw msg).
Proof. unfold send_email. repeat exits_step. Qed.

Lemma main_loop_no_exit P cfg files recipients :
  forall s f, exits_with P (main_loop cfg files recipients s f).
Proof.
  induction recipients as [|r rest IH]; intros s f; cbn [main_loop].
  - apply exits_ret.
  - apply exits_bind.
    { unfold compose. destruct (create_email_message _ _ _ _ _); repeat exits_step. }
    intros msg. apply exits_bind; [apply attach_all_no_exit|].
    intros [msg' ok]. cbn [fst snd]. destruct (negb ok); [apply IH|].
    apply exits_bind; [apply send_email_no_exit|].
    intros sent. destruct sent; apply IH.
Qed.

Lemma main_no_exit P cfg : exits_with P (main cfg).
Proof.
  unfold main. apply exits_try; [|intros; apply exits_ret].
  destruct (negb (validate_config cfg)); [apply exits_ret|].
  apply exits_bind; [apply load_recipients_no_exit|]. intros recs.
  apply exits_bind; [apply get_files_no_exit|]. intros files.
  destruct files; [apply exits_ret|].
  apply exits_bind; [apply main_loop_no_exit|]. intros. apply exits_ret.
Qed.

End EmailSenderMain.

End MainFacts.

(** ** Runs of the loop of email_sender *)

Module SenderFacts.
Import Py Eff EffFacts MainFacts EmailSender.








Section Loop.
Variable w : world.
Variable cfg : EmailConfig.
Variable files : list string.







End Loop.

End SenderFacts.

(** ** Stripping and filtering the lines of a recipient source *)

Module LoaderFacts.
Import Py Eff.

Lemma collect_emails_filter lines :
  FileDelivery.collect_emails lines = map strip (filter Spec.retained lines).
Proof.
  induction lines as [|line rest IH]; simpl; [reflexivity|].
  unfold Spec.retained. rewrite IH.
  destruct (truthy (strip line) && negb (startswith "#"%char (strip line)));
    simpl; [|reflexivity].
  destruct (contains "@"%char (strip line)); reflexivity.
Qed.

Lemma lstrip_head s :
  lstrip s = EmptyString
  \/ exists c r, lstrip s = String c r /\ isspace c = false.
Proof.
  induction s as [|c r IH]; simpl; auto.
  destruct (isspace c) eqn:Hc; auto. right. eauto.
Qed.

Lemma rstrip_idempotent s : rstrip (rstrip s) = rstrip s.
Proof.
  induction s as [|c r IH]; simpl; [reflexivity|].
  destruct (rstrip r) as [|d r'] eqn:Hr.
  - destruct (isspace c) eqn:Hc; simpl; [reflexivity|]. rewrite Hc. reflexivity.
  - cbn [rstrip]. cbn [rstrip] in IH. rewrite IH. reflexivity.
Qed.

Lemma rstrip_keeps_head c r :
  isspace c = false -> exists r', rstrip (String c r) = String c r'.
Proof.
  intros Hc. simpl. destruct (rstrip r); rewrite ?Hc; eauto.
Qed.

Lemma strip_idempotent s : strip (strip s) = strip s.
Proof.
  unfold strip. destruct (lstrip_head s) as [->|(c & r & -> & Hc)]; [reflexivity|].
  destruct (@rstrip_keeps_head c r Hc) as (r' & Hr).
  assert (Hl : lstrip (rstrip (String c r)) = rstrip (String c r)).
  { rewrite Hr. simpl. rewrite Hc. reflexivity. }
  rewrite Hl. apply rstrip_idempotent.
Qed.

Lemma eqb_not_space c d : isspace c = false -> isspace d = true -> Ascii.eqb c d = false.
Proof.
  intros Hc Hd. destruct (Ascii.eqb_spec c d); [congruence|reflexivity].
Qed.

Lemma contains_lstrip c s : isspace c = false -> contains c (lstrip s) = contains c s.
Proof.
  intros Hc. induction s as [|d r IH]; simpl; [reflexivity|].
  destruct (isspace d) eqn:Hd; [|reflexivity].
  rewrite IH, (@eqb_not_space c d Hc Hd). reflexivity.
Qed.

Lemma contains_rstrip c s : isspace c = false -> contains c (rstrip s) = contains c s.
Proof.
  intros Hc. induction s as [|d r IH]; simpl; [reflexivity|].
  destruct (rstrip r) as [|e r'] eqn:Hr.
  - rewrite <- IH. simpl. destruct (isspace d) eqn:Hd; simpl.
    + rewrite (@eqb_not_space c d Hc Hd). reflexivity.
    + reflexivity.
  - rewrite <- IH. reflexivity.
Qed.

Lemma contains_strip c s : isspace c = false -> contains c (strip s) = contains c s.
Proof.
  intros Hc. unfold strip. rewrite contains_rstrip, contains_lstrip; auto.
Qed.

(** What holds of a line that [load_delivery_list] retains. *)
Lemma retained_strip line :
  Spec.retained line = true ->
  Spec.retained (strip line) = true /\ strip line <> EmptyString.
Proof.
  unfold Spec.retained. rewrite strip_idempotent. intros H. split; [exact H|].
  destruct (strip line); [discriminate|discriminate].
Qed.

(** A source with no retained line and no comment that holds the separator
    leaves [load_recipients] nothing to keep. *)
Lemma nothing_selected lines :
  filter Spec.retained lines = [] ->
  filter Spec.comment_with_separator lines = [] ->
  EmailSender.select_recipients lines = [].
Proof.
  unfold EmailSender.select_recipients.
  induction lines as [|line rest IH]; [reflexivity|].
  cbn [filter]. unfold Spec.retained at 1, Spec.comment_with_separator at 1,
    EmailSender.keeps at 1.
  rewrite (@contains_strip "@"%char line eq_refl).
  destruct (truthy (strip line)); cbn [andb].
  - destruct (contains "@"%char line); rewrite ?andb_true_r, ?andb_false_r.
    + destruct (startswith "#"%char (strip line)); cbn [negb]; discriminate.
    + cbn [map]. exact IH.
  - destruct (startswith "#"%char (strip line) && contains "@"%char line);
      [discriminate|exact IH].
Qed.

End LoaderFacts.

(** ** The claims about the two [main] functions *)

Module MainClaims.
Import Py Eff EffFacts MainFacts LoaderFacts SenderFacts.

(** C6.  When the file to send is missing, is not a regular file, or cannot
    be opened, [main] of file_delivery_script exits with code 1 without
    reading the recipient source and without any transport request. *)
Theorem invalid_file_stops_the_run w args :
  (forall h, path_exists w h (FileDelivery.arg_file args) = false)
  \/ (forall h, path_isfile w h (FileDelivery.arg_file args) = false)
  \/ (forall h, exists e, open_read w h (FileDelivery.arg_file args) = Fails e) ->
  FileDelivery.exit_code (fst (run (FileDelivery.main args) w)) = 1%Z
  /\ filter is_read_lines (snd (run (FileDelivery.main args) w)) = []
  /\ filter is_transport (snd (run (FileDelivery.main args) w)) = [].
Proof.
  intros H.
  unfold run, FileDelivery.main, FileDelivery.main_try, FileDelivery.main_deliver,
    try_except, bind.
  destruct (main_service_local args w []) as (t & Ht & Hq).
  pose proof (main_service_no_exit args w []) as Hexit.
  destruct (FileDelivery.main_service args w []) as [[svc|e] h1];
    simpl in Ht; subst h1.
  - destruct (validate_file_invalid _ _ H svc t) as (t' & -> & Hq').
    simpl. rewrite !filter_app.
    destruct (forallb_local_transport _ Hq) as [-> ->].
    destruct (forallb_local_transport _ Hq') as [-> ->]. auto.
  - destruct (forallb_local_transport _ Hq) as [Ht1 Ht2].
    destruct e as [|c|e]; simpl; auto.
    destruct (Hexit c eq_refl).
Qed.

Lemma invalid_file_stops_the_run_witness :
  FileDelivery.exit_code
    (fst (run (FileDelivery.main Worlds.args) (Worlds.missing_file Worlds.calm))) = 1%Z
  /\ filter is_read_lines
       (snd (run (FileDelivery.main Worlds.args) (Worlds.missing_file Worlds.calm))) = []
  /\ filter is_transport
       (snd (run (FileDelivery.main Worlds.args) (Worlds.missing_file Worlds.calm))) = [].
Proof.
  apply (@invalid_file_stops_the_run (Worlds.missing_file Worlds.calm) Worlds.args).
  left. intros h. reflexivity.
Defined.

(** Scenario D of the specification: the run with a missing file asks for
    the configuration and for the file, and for nothing else. *)
Example scenario_D :
  run (FileDelivery.main Worlds.args) (Worlds.missing_file Worlds.calm)
  = (Raise (SystemExit 1),
     [EvPathExists "config.ini"; EvReadConfig "config.ini";
      EvPathExists "/srv/report.pdf"]).
Proof. reflexivity. Qed.

(** C5, as the code has it.  When filtering blank lines, comment lines and
    lines without the separator leaves no line of the recipient source,
    [load_delivery_list] returns the empty list without an error and [main] of
    file_delivery_script exits with code 1 without a transport request; when,
    besides, no comment line of the source holds the separator,
    [load_recipients] raises ValueError and [main] of email_sender returns
    [False] (or is interrupted) without a transport request. *)
Theorem no_address_no_transport w args cfg :
  (forall h, match read_lines w h (FileDelivery.arg_delivery_list args) with
             | Ok lines => filter Spec.retained lines = []
             | _ => True
             end) ->
  (forall h, match read_lines w h EmailSender.RECIPIENTS_FILE with
             | Ok lines => filter Spec.retained lines = []
                           /\ filter Spec.comment_with_separator lines = []
             | _ => True
             end) ->
  (forall self h lines,
      read_lines w h (FileDelivery.arg_delivery_list args) = Ok lines ->
      FileDelivery.load_delivery_list self (FileDelivery.arg_delivery_list args) w h
      = (Ret [], h ++ [EvReadLines (FileDelivery.arg_delivery_list args)]))
  /\ FileDelivery.exit_code (fst (run (FileDelivery.main args) w)) = 1%Z
  /\ filter is_transport (snd (run (FileDelivery.main args) w)) = []
  /\ (forall h lines,
        read_lines w h EmailSender.RECIPIENTS_FILE = Ok lines ->
        EmailSender.load_recipients EmailSender.RECIPIENTS_FILE w h
        = (Raise (Error (ValueError "No valid email addresses found in recipients file")),
           h ++ [EvReadLines EmailSender.RECIPIENTS_FILE]))
  /\ (fst (run (EmailSender.main cfg) w) = Ret false
      \/ fst (run (EmailSender.main cfg) w) = Raise KeyboardInterrupt)
  /\ filter is_transport (snd (run (EmailSender.main cfg) w)) = [].
Proof.
  intros Hd0 Hr0.
  assert (Hd : forall h, match read_lines w h (FileDelivery.arg_delivery_list args) with
                         | Ok lines => FileDelivery.collect_emails lines = []
                         | _ => True
                         end).
  { intros h. specialize (Hd0 h).
    destruct (read_lines w h (FileDelivery.arg_delivery_list args)); auto.
    rewrite collect_emails_filter, Hd0. reflexivity. }
  assert (Hr : forall h, match read_lines w h EmailSender.RECIPIENTS_FILE with
                         | Ok lines => EmailSender.select_recipients lines = []
                         | _ => True
                         end).
  { intros h. specialize (Hr0 h).
    destruct (read_lines w h EmailSender.RECIPIENTS_FILE); auto.
    destruct Hr0 as [Hret Hcom]. apply nothing_selected; assumption. }
  clear Hd0 Hr0.
  split; [|split; [|split; [|split]]].
  - intros self h lines Hl. rewrite load_delivery_list_run.
    specialize (Hd h). rewrite Hl in *. rewrite Hd. reflexivity.
  - unfold run, FileDelivery.main, FileDelivery.main_try, FileDelivery.main_deliver,
      try_except, bind.
    pose proof (main_service_no_exit args w []) as Hexit.
    destruct (FileDelivery.main_service args w []) as [[svc|e] h1].
    2:{ destruct e as [|c|e]; simpl; auto. destruct (Hexit c eq_refl). }
    pose proof (validate_file_no_exit svc (FileDelivery.arg_file args) w h1) as Hexit'.
    destruct (FileDelivery.validate_file svc _ w h1) as [[ok|e] h2].
    2:{ destruct e as [|c|e]; simpl; auto. destruct (Hexit' c eq_refl). }
    destruct ok; simpl; auto.
    rewrite load_delivery_list_run. specialize (Hd h2).
    destruct (read_lines w h2 _) as [lines|e|]; simpl; auto.
    rewrite Hd. reflexivity.
  - unfold run, FileDelivery.main, FileDelivery.main_try, FileDelivery.main_deliver,
      try_except, bind.
    destruct (main_service_local args w []) as (t & Ht & Hq).
    destruct (FileDelivery.main_service args w []) as [[svc|e] h1]; simpl in Ht; subst h1.
    2:{ apply forallb_local_transport in Hq. destruct Hq as [Hq _].
        destruct e as [|c|e]; simpl; auto. }
    destruct (validate_file_local svc (FileDelivery.arg_file args) w t) as (t' & Ht' & Hq').
    apply forallb_local_transport in Hq, Hq'. destruct Hq as [Hq _], Hq' as [Hq' _].
    destruct (FileDelivery.validate_file svc _ w t) as [[ok|e] h2]; simpl in Ht'; subst h2.
    2:{ destruct e as [|c|e]; simpl; rewrite filter_app, Hq, Hq'; auto. }
    destruct ok; simpl; [|rewrite filter_app, Hq, Hq'; auto].
    rewrite load_delivery_list_run. specialize (Hd (t ++ t')).
    destruct (read_lines w (t ++ t') _) as [lines|e|]; simpl;
      rewrite ?Hd; simpl; rewrite !filter_app, Hq, Hq'; reflexivity.
  - intros h lines Hl. rewrite load_recipients_run.
    specialize (Hr h). rewrite Hl in *. rewrite Hr. reflexivity.
  - unfold run, EmailSender.main, try_except, bind.
    destruct (negb (EmailSender.validate_config cfg)); [simpl; auto|].
    rewrite load_recipients_run. specialize (Hr []).
    destruct (read_lines w [] _) as [lines|e|]; simpl; rewrite ?Hr; simpl; auto.
Qed.

Lemma no_address_no_transport_witness :
  let w := Worlds.make Worlds.nothing_valid Worlds.same_bytes Worlds.accept_all in
  (forall self h lines,
      read_lines w h "list.txt" = Ok lines ->
      FileDelivery.load_delivery_list self "list.txt" w h
      = (Ret [], h ++ [EvReadLines "list.txt"]))
  /\ FileDelivery.exit_code (fst (run (FileDelivery.main Worlds.args) w)) = 1%Z
  /\ filter is_transport (snd (run (FileDelivery.main Worlds.args) w)) = []
  /\ (forall h lines,
        read_lines w h EmailSender.RECIPIENTS_FILE = Ok lines ->
        EmailSender.load_recipients EmailSender.RECIPIENTS_FILE w h
        = (Raise (Error (ValueError "No valid email addresses found in recipients file")),
           h ++ [EvReadLines EmailSender.RECIPIENTS_FILE]))
  /\ (fst (run (EmailSender.main Worlds.email_config) w) = Ret false
      \/ fst (run (EmailSender.main Worlds.email_config) w) = Raise KeyboardInterrupt)
  /\ filter is_transport (snd (run (EmailSender.main Worlds.email_config) w)) = [].
Proof.
  apply (@no_address_no_transport
           (Worlds.make Worlds.nothing_valid Worlds.same_bytes Worlds.accept_all)
           Worlds.args Worlds.email_config).
  - intros h. reflexivity.
  - intros h. split; reflexivity.
Defined.

(** C5 fails as stated, twice.  On a source with nothing but a comment, a
    blank line and a line without the separator, [load_delivery_list] does not
    fail: it returns the empty list.  On a source with nothing but the comment
    [# old@x.com], where the filter of the claim leaves no line either,
    [load_recipients] does not fail: it returns the comment as a recipient,
    and [main] of email_sender opens a session and sends it the message. *)
Lemma empty_list_returned_and_comment_mailed :
  (filter Spec.retained Worlds.nothing_valid = []
   /\ run (FileDelivery.load_delivery_list Worlds.service "list.txt")
        (Worlds.make Worlds.nothing_valid Worlds.same_bytes Worlds.accept_all)
      = (Ret [], [EvReadLines "list.txt"]))
  /\ (let w := Worlds.make Worlds.commented Worlds.same_bytes Worlds.accept_all in
      filter Spec.retained Worlds.commented = []
      /\ run (EmailSender.load_recipients EmailSender.RECIPIENTS_FILE) w
         = (Ret ["# old@x.com"], [EvReadLines "./recipients.txt"])
      /\ fst (run (EmailSender.main Worlds.email_config) w) = Ret true
      /\ Vocabulary.sendmail_recipients
           (snd (run (EmailSender.main Worlds.email_config) w)) = ["# old@x.com"]
      /\ List.length
           (filter is_transport (snd (run (EmailSender.main Worlds.email_config) w)))
         = 5%nat).
Proof. repeat split. Qed.



(** A message that the server accepted does not make a success by itself:
    when [quit] fails after every accepted message, [send_email] returns
    [False] each time and email_sender exits with code 1. *)
Example accepted_message_without_quit :
  let w := Vocabulary.failing_at_quit (OtherError "connection lost") Worlds.calm in
  Vocabulary.sendmail_recipients (snd (run (EmailSender.main Worlds.email_config) w))
  = ["r1@x.com"; "r2@x.com"; "r3@x.com"]
  /\ EmailSender.script_status (fst (run (EmailSender.main Worlds.email_config) w))
     = EmailSender.Exited 1.
Proof. split; reflexivity. Qed.

(** Scenarios B and C of the specification on file_delivery_script: all three
    accepted gives exit code 0, the second rejected gives exit code 1. *)
Example scenario_B_exit :
  FileDelivery.exit_code (fst (run (FileDelivery.main Worlds.args) Worlds.calm)) = 0%Z.
Proof. reflexivity. Qed.

Example scenario_C_exit :
  FileDelivery.exit_code
    (fst (run (FileDelivery.main Worlds.args)
            (Worlds.make Worlds.three Worlds.same_bytes Worlds.reject_r2))) = 1%Z.
Proof. reflexivity. Qed.

End MainClaims.

(** ** The address-list loaders *)

Module LoaderClaims.
Import Py Eff MainFacts LoaderFacts.

(** C1, as the code has it.  Both loaders return, in the order of the source,
    the stripped text of every line that passes their filter, duplicates
    included, so the length of the result is the number of such lines:
    [load_delivery_list] keeps the lines that are not blank, are no comment
    and contain the separator, [load_recipients] the lines that are not blank
    and contain the separator, and it raises when there is none. *)
Theorem loaders_keep_every_retained_line w self path h :
  FileDelivery.load_delivery_list self path w h
  = (match read_lines w h path with
     | Ok lines => Ret (map strip (filter Spec.retained lines))
     | Fails e => Raise (Error e)
     | Interrupt => Raise KeyboardInterrupt
     end, h ++ [EvReadLines path])
  /\ EmailSender.load_recipients path w h
     = (match read_lines w h path with
        | Ok lines =>
            match map strip (filter EmailSender.keeps lines) with
            | [] => Raise EmailSender.no_recipients_error
            | r :: rs => Ret (r :: rs)
            end
        | Fails e => Raise (Error e)
        | Interrupt => Raise KeyboardInterrupt
        end, h ++ [EvReadLines path])
  /\ (forall lines,
        List.length (FileDelivery.collect_emails lines)
        = List.length (filter Spec.retained lines)
        /\ List.length (EmailSender.select_recipients lines)
           = List.length (filter EmailSender.keeps lines)).
Proof.
  split; [|split].
  - rewrite load_delivery_list_run.
    destruct (read_lines w h path); try reflexivity.
    rewrite collect_emails_filter. reflexivity.
  - rewrite load_recipients_run. reflexivity.
  - intros lines. rewrite collect_emails_filter.
    unfold EmailSender.select_recipients. rewrite !length_map. auto.
Qed.

(** C1 fails as stated: on scenario A of the specification both loaders
    return the address a@x.com twice, three addresses where the source has two
    distinct ones. *)
Lemma loaders_keep_the_duplicate_of_scenario_A :
  let w := Worlds.make Worlds.scenario_A Worlds.same_bytes Worlds.accept_all in
  run (FileDelivery.load_delivery_list Worlds.service "list.txt") w
  = (Ret ["a@x.com"; "b@x.com"; "a@x.com"], [EvReadLines "list.txt"])
  /\ run (EmailSender.load_recipients "./recipients.txt") w
     = (Ret ["a@x.com"; "b@x.com"; "a@x.com"], [EvReadLines "./recipients.txt"])
  /\ Spec.spec_load Worlds.scenario_A = ["a@x.com"; "b@x.com"]
  /\ ~ NoDup (FileDelivery.collect_emails Worlds.scenario_A)
  /\ List.length (FileDelivery.collect_emails Worlds.scenario_A)
     <> List.length (Spec.spec_load Worlds.scenario_A).
Proof.
  repeat split; try discriminate.
  intros H. inversion H as [|x l Hin _]; subst. apply Hin. simpl. auto.
Qed.

End LoaderClaims.

(** ** Message composition *)

Module ComposeClaims.
Import Py Eff Format.



Lemma emit_emit_str c pre o : emit c (emit_str pre o) = emit_str (String c pre) o.
Proof. destruct o; reflexivity. Qed.

(** Literal text goes to the output unchanged. *)
Lemma format_from_literal n pre :
  brace_free pre = true ->
  forall s, format_from n Literal (pre ++ s) = emit_str pre (format_from n Literal s).
Proof.
  induction pre as [|c pre IH]; intros Hpre s.
  - simpl. destruct (format_from n Literal s); reflexivity.
  - simpl in Hpre. apply andb_true_iff in Hpre. destruct Hpre as [Hc Hpre].
    apply andb_true_iff in Hc. destruct Hc as [Hc1 Hc2].
    apply negb_true_iff in Hc1, Hc2.
    cbn [append format_from]. rewrite Hc1, Hc2, (IH Hpre). apply emit_emit_str.
Qed.



(** The one token the keyword argument resolves. *)
Lemma format_sender_name n post :
  format_from n Literal ("{sender_name}" ++ post)
  = emit_str n (format_from n Literal post).
Proof. reflexivity. Qed.











(** The body of file_delivery_script is no template: the same text stays as
    it is, braces and all. *)
Example file_delivery_keeps_the_braces :
  fst (run (FileDelivery.create_email_message Worlds.service "r1@x.com"
              "/srv/report.pdf" None (Some "Dear {recipient}, regards {sender_name}"))
         Worlds.calm)
  = Ret {| msg_From := Some "me@x.com"; msg_To := "r1@x.com";
           msg_Subject := "File Delivery: report.pdf";
           msg_parts := [TextPart "Dear {recipient}, regards {sender_name}";
                         FileDelivery.attachment_part "/srv/report.pdf" "DATA"] |}.
Proof. reflexivity. Qed.

(** The shipped body of email_sender is formatted for every sender name. *)
Lemma EMAIL_BODY_formats n :
  exists head,
    format EmailSender.EMAIL_BODY n = Done (head ++ n ++ nl)%string.
Proof.
  exists (substring 0 (String.length EmailSender.EMAIL_BODY - 14) EmailSender.EMAIL_BODY).
  set (head := substring 0 _ _).
  assert (Hsplit : EmailSender.EMAIL_BODY = (head ++ "{sender_name}" ++ nl)%string)
    by (vm_compute; reflexivity).
  assert (Hhead : brace_free head = true) by (vm_compute; reflexivity).
  rewrite Hsplit. unfold format.
  rewrite (format_from_literal n head Hhead), format_sender_name.
  reflexivity.
Qed.

End ComposeClaims.

(** ** Further properties of the loaders *)

Module LoaderProps.
Import Py Eff LoaderFacts.

(** X1.  Every address [load_delivery_list] keeps is non-empty, has no
    white space around it, is no comment and contains the separator. *)
Theorem loaded_addresses_are_clean lines a :
  In a (FileDelivery.collect_emails lines) ->
  a <> EmptyString /\ strip a = a
  /\ startswith "#"%char a = false /\ contains "@"%char a = true.
Proof.
  rewrite collect_emails_filter. intros Hin.
  apply in_map_iff in Hin. destruct Hin as (line & <- & Hline).
  apply filter_In in Hline. destruct Hline as [_ Hret].
  unfold Spec.retained in Hret.
  apply andb_true_iff in Hret. destruct Hret as [Hret Hat].
  apply andb_true_iff in Hret. destruct Hret as [Ht Hc].
  apply negb_true_iff in Hc.
  repeat split; auto using strip_idempotent.
  destruct (strip line); discriminate.
Qed.

Lemma loaded_addresses_are_clean_witness :
  "a@x.com" <> EmptyString /\ strip "a@x.com" = "a@x.com"
  /\ startswith "#"%char "a@x.com" = false /\ contains "@"%char "a@x.com" = true.
Proof.
  apply (@loaded_addresses_are_clean Worlds.scenario_A "a@x.com").
  simpl. auto.
Defined.

(** X2.  Every recipient [load_recipients] keeps is non-empty, has no white
    space around it and contains the separator. *)
Theorem selected_recipients_are_clean lines a :
  In a (EmailSender.select_recipients lines) ->
  a <> EmptyString /\ strip a = a /\ contains "@"%char a = true.
Proof.
  unfold EmailSender.select_recipients. intros Hin.
  apply in_map_iff in Hin. destruct Hin as (line & <- & Hline).
  apply filter_In in Hline. destruct Hline as [_ Hk].
  unfold EmailSender.keeps in Hk.
  apply andb_true_iff in Hk. destruct Hk as [Ht Hat].
  repeat split; auto using strip_idempotent.
  - destruct (strip line); discriminate.
  - rewrite contains_strip; [assumption|reflexivity].
Qed.

Lemma selected_recipients_are_clean_witness :
  "b@x.com" <> EmptyString /\ strip "b@x.com" = "b@x.com"
  /\ contains "@"%char "b@x.com" = true.
Proof.
  apply (@selected_recipients_are_clean Worlds.scenario_A "b@x.com").
  simpl. auto.
Defined.

(** X3.  The two loaders differ on comment lines only: what
    [load_delivery_list] keeps is what [load_recipients] keeps, less the
    entries that start with the comment marker. *)
Theorem loaders_differ_on_comments lines :
  FileDelivery.collect_emails lines
  = filter (fun a => negb (startswith "#"%char a)) (EmailSender.select_recipients lines).
Proof.
  rewrite collect_emails_filter. unfold EmailSender.select_recipients.
  induction lines as [|line rest IH]; [reflexivity|].
  cbn [filter]. unfold Spec.retained at 1, EmailSender.keeps at 1.
  rewrite (@contains_strip "@"%char line eq_refl).
  destruct (truthy (strip line)); cbn [andb]; [|exact IH].
  destruct (contains "@"%char line); cbn [andb map filter].
  - destruct (startswith "#"%char (strip line)); cbn [negb andb map]; rewrite IH; reflexivity.
  - rewrite andb_false_r. exact IH.
Qed.

(** X4.  Loading is idempotent: a list that [load_delivery_list] returned,
    written out one address per line and loaded again, comes back unchanged. *)
Theorem collect_emails_idempotent lines :
  FileDelivery.collect_emails (FileDelivery.collect_emails lines)
  = FileDelivery.collect_emails lines.
Proof.
  rewrite !collect_emails_filter.
  induction lines as [|line rest IH]; [reflexivity|].
  cbn [filter]. destruct (Spec.retained line) eqn:Hret; [|exact IH].
  cbn [map filter]. destruct (@retained_strip line Hret) as [-> _].
  cbn [map]. rewrite strip_idempotent, IH. reflexivity.
Qed.

End LoaderProps.

(** ** Further properties of [FileDeliveryService] *)

Module DeliveryProps.
Import Py Eff FileDelivery DeliveryFacts Vocabulary.

Section Loop.
Variable w : world.
Variable self : FileDeliveryService.
Variable file_path : string.
Variables subject body : option string.

(** A loop that returns went through one attempt per recipient, whatever the
    world answered. *)
Lemma send_loop_returns delivery_list :
  forall results h r h',
    send_loop self file_path subject body delivery_list results w h = (Ret r, h') ->
    exists atts,
      map fst atts = delivery_list
      /\ Attempts w self file_path subject body h atts
      /\ r = report_of results atts
      /\ h' = h ++ flat_map (events_of self file_path subject body) atts.
Proof.
  induction delivery_list as [|recipient rest IH]; intros results h r h' Hrun.
  - simpl in Hrun. inversion Hrun; subst. exists []. simpl. rewrite app_nil_r.
    repeat split. constructor.
  - cbn [send_loop] in Hrun. unfold bind at 1 in Hrun.
    destruct (iteration_run w self file_path subject body recipient results h)
      as [(a & Ha & Hag & Hturn)|(h1 & Hturn & _)];
      rewrite Hturn in Hrun; [|discriminate].
    destruct (IH _ _ _ _ Hrun) as (atts & Hmap & Hatts & Hr & Hh).
    exists (a :: atts). cbn [map flat_map].
    split; [congruence|]. split; [constructor; assumption|]. split; [exact Hr|].
    rewrite Hh, <- app_assoc. reflexivity.
Qed.

(** When the file cannot be read, every recipient fails with that error. *)
Lemma send_loop_unreadable e (Hread : forall h, read_bytes w h file_path = Fails e)
    delivery_list :
  forall results h,
    send_loop self file_path subject body delivery_list results w h
    = (Ret {| successful := successful results;
              failed := failed results
                        ++ map (fun r => (r, str_error e)) delivery_list;
              total := total results |},
       h ++ repeat (EvReadBytes file_path) (List.length delivery_list)).
Proof.
  induction delivery_list as [|recipient rest IH]; intros results h.
  - simpl. rewrite !app_nil_r. destruct results; reflexivity.
  - cbn [send_loop]. unfold bind at 1, try_except, bind at 1.
    rewrite send_one_run, Hread. cbn [is_Exception ret str_exn].
    rewrite IH. cbn [add_failed successful failed total map repeat List.length].
    rewrite <- !app_assoc. reflexivity.
Qed.

(** When reading and sending always succeed, every recipient is served. *)
Lemma send_loop_all_sent (Hread : readable w)
    (Hsend : forall h s r m, smtp_sendmail w h s r m = Ok tt) delivery_list :
  forall results h,
  exists t,
    send_loop self file_path subject body delivery_list results w h
    = (Ret {| successful := successful results ++ delivery_list;
              failed := failed results;
              total := total results |}, h ++ t)
    /\ sendmail_recipients t = delivery_list
    /\ filter is_quit t = [].
Proof.
  induction delivery_list as [|recipient rest IH]; intros results h.
  - exists []. simpl. rewrite !app_nil_r. destruct results; auto.
  - cbn [send_loop]. unfold bind at 1, try_except, bind at 1.
    rewrite send_one_run. destruct (Hread h file_path) as (data & ->).
    rewrite Hsend. cbn [to_res ret].
    destruct (IH (add_successful results recipient)
                (h ++ [EvReadBytes file_path;
                       EvSendmail (from_addr self) recipient
                         (message_for self file_path subject body recipient data)]))
      as (t & -> & Hrec & Hquit).
    exists ([EvReadBytes file_path;
             EvSendmail (from_addr self) recipient
               (message_for self file_path subject body recipient data)] ++ t).
    cbn [add_successful successful failed total].
    rewrite <- !app_assoc. repeat split.
    + unfold sendmail_recipients in *. simpl. rewrite Hrec. reflexivity.
    + simpl. exact Hquit.
Qed.

End Loop.

(** [send_file] once the credentials are set and the session is open. *)
Lemma send_file_after_open w self file_path delivery_list subject body h :
  configured self -> opens w self h ->
  send_file self file_path delivery_list subject body w h
  = match send_loop self file_path subject body delivery_list
            {| successful := []; failed := []; total := List.length delivery_list |}
            w (h ++ open_events self) with
    | (Ret r, h1) =>
        (match smtp_quit w h1 with
         | Ok _ => Ret r
         | Fails e => Raise (Error e)
         | Interrupt => Raise KeyboardInterrupt
         end, h1 ++ [EvQuit])
    | (Raise e, h1) => (Raise e, h1)
    end.
Proof.
  intros Hcfg (Hc & Ht & Hl).
  unfold send_file. rewrite (configured_check Hcfg).
  unfold try_except, bind, request.
  rewrite Hc. cbn [to_res]. rewrite Ht. cbn [to_res].
  replace ((h ++ [EvConnect (smtp_server self) (smtp_port self)]) ++ [EvStartTLS])
    with (h ++ [EvConnect (smtp_server self) (smtp_port self); EvStartTLS])
    by (rewrite <- app_assoc; reflexivity).
  rewrite Hl. cbn [to_res].
  replace ((h ++ [EvConnect (smtp_server self) (smtp_port self); EvStartTLS])
             ++ [EvLogin (from_addr self) (password self)])
    with (h ++ open_events self) by (rewrite <- app_assoc; reflexivity).
  destruct (send_loop self file_path subject body delivery_list _ w
              (h ++ open_events self)) as [[r|e] h1].
  - destruct (smtp_quit w h1); reflexivity.
  - destruct (is_Exception e); reflexivity.
Qed.

Lemma server_accepts_opens w self h : server_accepts w -> opens w self h.
Proof. intros (Hc & Ht & Hl & _). repeat split; auto. Qed.

(** The two lists of a report share out the attempts. *)
Lemma attempts_partition (atts : list attempt) :
  Permutation
    (map fst (filter succeeded atts)
     ++ map fst (flat_map (fun a => match failure_of a with
                                    | Some f => [f]
                                    | None => []
                                    end) atts))
    (map fst atts).
Proof.
  induction atts as [|[r [e|d e|d]] atts IH]; simpl.
  - constructor.
  - apply Permutation_sym, Permutation_cons_app, Permutation_sym, IH.
  - apply Permutation_sym, Permutation_cons_app, Permutation_sym, IH.
  - constructor. exact IH.
Qed.

(** X5.  In every report [send_file] returns, each recipient of the delivery
    list is in exactly one of the two lists: the successful recipients
    together with the failed ones are a rearrangement of the list. *)
Theorem report_shares_out_the_list w self file_path delivery_list subject body h r h' :
  send_file self file_path delivery_list subject body w h = (Ret r, h') ->
  Permutation (successful r ++ map fst (failed r)) delivery_list.
Proof.
  intros Hrun.
  destruct (send_file_returns_loop _ _ _ _ _ _ _ Hrun) as (h1 & h2 & Hloop).
  destruct (@send_loop_returns _ _ _ _ _ _ _ _ _ _ Hloop) as (atts & Hmap & _ & -> & _).
  rewrite report_of_attempts. cbn [successful failed]. rewrite <- Hmap.
  apply attempts_partition.
Qed.

Lemma report_shares_out_the_list_witness :
  Permutation (["r1@x.com"; "r3@x.com"] ++ map fst [("r2@x.com", "recipient refused")])
    ["r1@x.com"; "r2@x.com"; "r3@x.com"].
Proof.
  apply (@report_shares_out_the_list
           (Worlds.make Worlds.three Worlds.same_bytes Worlds.reject_r2)
           Worlds.service "/srv/report.pdf" ["r1@x.com"; "r2@x.com"; "r3@x.com"]
           None None []
           {| successful := ["r1@x.com"; "r3@x.com"];
              failed := [("r2@x.com", "recipient refused")];
              total := 3 |}
           (snd (run (send_file Worlds.service "/srv/report.pdf"
                        ["r1@x.com"; "r2@x.com"; "r3@x.com"] None None)
                   (Worlds.make Worlds.three Worlds.same_bytes Worlds.reject_r2)))).
  reflexivity.
Defined.

(** X6.  With an empty delivery list [send_file] still opens the session and
    closes it, reads and sends nothing, and returns the empty report. *)
Theorem send_file_empty_list w self file_path subject body h :
  configured self -> opens w self h ->
  smtp_quit w (h ++ open_events self) = Ok tt ->
  send_file self file_path [] subject body w h
  = (Ret {| successful := []; failed := []; total := 0 |},
     h ++ open_events self ++ [EvQuit]).
Proof.
  intros Hcfg Hopen Hquit. rewrite (send_file_after_open _ _ _ _ Hcfg Hopen).
  cbn [send_loop ret List.length]. rewrite Hquit, <- app_assoc. reflexivity.
Qed.

Lemma send_file_empty_list_witness :
  send_file Worlds.service "/srv/report.pdf" [] None None Worlds.calm []
  = (Ret {| successful := []; failed := []; total := 0 |},
     [] ++ open_events Worlds.service ++ [EvQuit]).
Proof.
  apply (@send_file_empty_list Worlds.calm Worlds.service "/srv/report.pdf" None None []).
  - split; reflexivity.
  - repeat split.
  - reflexivity.
Defined.

(** X7.  When the connection, STARTTLS or the login fails with an error,
    [send_file] raises that error: there is no report, the file is not read,
    nothing is sent, and [quit] is not requested. *)
Theorem send_file_open_failure w self file_path delivery_list subject body h e :
  configured self ->
  smtp_connect w h (smtp_server self) (smtp_port self) = Fails e
  \/ (smtp_connect w h (smtp_server self) (smtp_port self) = Ok tt
      /\ smtp_starttls w (h ++ [EvConnect (smtp_server self) (smtp_port self)]) = Fails e)
  \/ (smtp_connect w h (smtp_server self) (smtp_port self) = Ok tt
      /\ smtp_starttls w (h ++ [EvConnect (smtp_server self) (smtp_port self)]) = Ok tt
      /\ smtp_login w (h ++ [EvConnect (smtp_server self) (smtp_port self); EvStartTLS])
           (from_addr self) (password self) = Fails e) ->
  exists t,
    send_file self file_path delivery_list subject body w h = (Raise (Error e), h ++ t)
    /\ forallb before_recipients t = true.
Proof.
  intros Hcfg H. unfold send_file. rewrite (configured_check Hcfg).
  unfold try_except, bind, request, raise.
  destruct H as [Hc|[(Hc & Ht)|(Hc & Ht & Hl)]]; rewrite Hc; cbn [to_res is_Exception].
  - exists [EvConnect (smtp_server self) (smtp_port self)]. auto.
  - rewrite Ht. cbn [to_res is_Exception].
    exists [EvConnect (smtp_server self) (smtp_port self); EvStartTLS].
    rewrite <- app_assoc. auto.
  - rewrite Ht. cbn [to_res].
    replace ((h ++ [EvConnect (smtp_server self) (smtp_port self)]) ++ [EvStartTLS])
      with (h ++ [EvConnect (smtp_server self) (smtp_port self); EvStartTLS])
      by (rewrite <- app_assoc; reflexivity).
    rewrite Hl. cbn [to_res is_Exception].
    exists (open_events self). rewrite <- app_assoc. auto.
Qed.

(** X8.  When the file cannot be read during the run, every recipient is
    entered in [failed] with the text of that error, nothing is sent, and the
    session is still closed. *)
Theorem send_file_unreadable_file w self file_path delivery_list subject body h e :
  configured self -> opens w self h ->
  (forall h', read_bytes w h' file_path = Fails e) ->
  (forall h', smtp_quit w h' = Ok tt) ->
  send_file self file_path delivery_list subject body w h
  = (Ret {| successful := [];
            failed := map (fun r => (r, str_error e)) delivery_list;
            total := List.length delivery_list |},
     h ++ open_events self
       ++ repeat (EvReadBytes file_path) (List.length delivery_list) ++ [EvQuit]).
Proof.
  intros Hcfg Hopen Hread Hquit.
  rewrite (send_file_after_open _ _ _ _ Hcfg Hopen).
  rewrite (@send_loop_unreadable w self file_path subject body e Hread).
  rewrite Hquit, <- !app_assoc. reflexivity.
Qed.

Lemma send_file_unreadable_file_witness :
  let w := Worlds.make Worlds.two (fun _ => Fails (PermissionError "denied"))
             Worlds.accept_all in
  send_file Worlds.service "/srv/report.pdf" ["r1@x.com"; "r2@x.com"] None None w []
  = (Ret {| successful := [];
            failed := map (fun r => (r, str_error (PermissionError "denied")))
                        ["r1@x.com"; "r2@x.com"];
            total := 2 |},
     [] ++ open_events Worlds.service
        ++ repeat (EvReadBytes "/srv/report.pdf") 2 ++ [EvQuit]).
Proof.
  apply (@send_file_unreadable_file
           (Worlds.make Worlds.two (fun _ => Fails (PermissionError "denied"))
              Worlds.accept_all)
           Worlds.service "/srv/report.pdf" ["r1@x.com"; "r2@x.com"] None None []
           (PermissionError "denied")).
  - split; reflexivity.
  - repeat split.
  - reflexivity.
  - reflexivity.
Defined.

(** X9.  When the file can be read and the server accepts everything, the
    report lists the whole delivery list as successful, in its order, nobody
    as failed, and the messages were sent to these recipients in this
    order. *)
Theorem send_file_all_sent w self file_path delivery_list subject body h :
  configured self -> readable w -> server_accepts w ->
  exists t,
    send_file self file_path delivery_list subject body w h
    = (Ret {| successful := delivery_list; failed := [];
              total := List.length delivery_list |}, h ++ t)
    /\ sendmail_recipients t = delivery_list.
Proof.
  intros Hcfg Hread Hsrv.
  rewrite (send_file_after_open _ _ _ _ Hcfg (@server_accepts_opens w self h Hsrv)).
  destruct Hsrv as (_ & _ & _ & Hsend & Hquit).
  destruct (@send_loop_all_sent w self file_path subject body Hread Hsend delivery_list
              {| successful := []; failed := []; total := List.length delivery_list |}
              (h ++ open_events self)) as (t & -> & Hrec & _).
  rewrite Hquit. cbn [successful failed total app].
  exists (open_events self ++ t ++ [EvQuit]). rewrite <- !app_assoc.
  split; [reflexivity|].
  unfold sendmail_recipients in *. rewrite !flat_map_app, Hrec. simpl.
  apply app_nil_r.
Qed.

Lemma send_file_all_sent_witness :
  exists t,
    send_file Worlds.service "/srv/report.pdf" ["r1@x.com"; "r2@x.com"; "r3@x.com"]
      None None Worlds.calm []
    = (Ret {| successful := ["r1@x.com"; "r2@x.com"; "r3@x.com"]; failed := [];
              total := 3 |}, [] ++ t)
    /\ sendmail_recipients t = ["r1@x.com"; "r2@x.com"; "r3@x.com"].
Proof.
  apply (@send_file_all_sent Worlds.calm Worlds.service "/srv/report.pdf"
           ["r1@x.com"; "r2@x.com"; "r3@x.com"] None None []).
  - split; reflexivity.
  - intros h p. exists "DATA". reflexivity.
  - repeat split.
Defined.

(** X10.  [validate_file] returns [True] exactly when the path exists, is a
    regular file and can be opened for reading, and it never raises an
    [Exception]: every error on opening becomes [False]. *)
Theorem validate_file_decides w self p h :
  (fst (validate_file self p w h) = Ret true
   <-> path_exists w h p = true
       /\ path_isfile w (h ++ [EvPathExists p]) p = true
       /\ open_read w ((h ++ [EvPathExists p]) ++ [EvIsFile p]) p = Ok tt)
  /\ (forall e, fst (validate_file self p w h) <> Raise (Error e)).
Proof.
  unfold validate_file, bind, query, try_except, request, ret.
  destruct (path_exists w h p); cbn [negb].
  2:{ cbn [fst]. split; [|discriminate]. split; [discriminate|]. intros (H & _). discriminate. }
  destruct (path_isfile w (h ++ [EvPathExists p]) p); cbn [negb].
  2:{ cbn [fst]. split; [|discriminate].
      split; [discriminate|]. intros (_ & H & _). discriminate. }
  destruct (open_read w ((h ++ [EvPathExists p]) ++ [EvIsFile p]) p) as [[]|e|];
    cbn [to_res is_Exception fst].
  - split; [|discriminate]. split; auto.
  - split; [|discriminate]. split; [discriminate|]. intros (_ & _ & H). discriminate.
  - split; [|discriminate]. split; [discriminate|]. intros (_ & _ & H). discriminate.
Qed.

Lemma contains_app c a b : contains c (a ++ b) = contains c a || contains c b.
Proof.
  induction a as [|d a IH]; simpl; [reflexivity|]. rewrite IH. apply orb_assoc.
Qed.

Lemma basename_of_join dir name :
  contains "/"%char name = false -> basename (dir ++ String "/"%char name) = name.
Proof.
  intros Hname. induction dir as [|c dir IH].
  - simpl. rewrite Hname. reflexivity.
  - cbn [append basename]. rewrite contains_app. cbn [contains Ascii.eqb Bool.eqb].
    rewrite orb_true_r. exact IH.
Qed.

(** X11.  For a file in a directory, the name announced for the attachment
    and the one in the default subject is the file's own name, without the
    directory. *)
Theorem attachment_is_named_after_the_file self recipient dir name data body :
  contains "/"%char name = false ->
  attachment_part (dir ++ String "/"%char name) data
  = Attachment "application/octet-stream" data ("attachment; filename= " ++ name)
  /\ msg_Subject (message_head self recipient (dir ++ String "/"%char name) None body)
     = ("File Delivery: " ++ name)%string.
Proof.
  intros Hname. unfold attachment_part, message_head, default_subject.
  cbn [msg_Subject or_else]. rewrite (@basename_of_join dir name Hname). auto.
Qed.

Lemma attachment_is_named_after_the_file_witness :
  attachment_part ("/srv/out" ++ String "/"%char "report.pdf") "DATA"
  = Attachment "application/octet-stream" "DATA" ("attachment; filename= " ++ "report.pdf")
  /\ msg_Subject (message_head Worlds.service "r1@x.com"
                    ("/srv/out" ++ String "/"%char "report.pdf") None None)
     = ("File Delivery: " ++ "report.pdf")%string.
Proof.
  apply (@attachment_is_named_after_the_file Worlds.service "r1@x.com" "/srv/out"
           "report.pdf" "DATA" None).
  reflexivity.
Defined.

(** X12.  A subject or a body given as the empty string counts as not given:
    the message gets the default subject and the default body. *)
Theorem empty_overrides_get_the_defaults w self recipient file_path subject body h data :
  truthy_opt subject = false -> truthy_opt body = false ->
  read_bytes w h file_path = Ok data ->
  create_email_message self recipient file_path subject body w h
  = (Ret {| msg_From := sender_email self;
            msg_To := recipient;
            msg_Subject := default_subject (basename file_path);
            msg_parts := [TextPart (default_body (basename file_path));
                          attachment_part file_path data] |},
     h ++ [EvReadBytes file_path]).
Proof.
  intros Hs Hb Hread.
  unfold create_email_message, try_except, bind, request, ret. rewrite Hread.
  cbn [to_res]. unfold message_head, attach. cbn [msg_From msg_To msg_Subject msg_parts app].
  assert (Hor : forall o d, truthy_opt o = false -> or_else o d = d).
  { intros [[|c s]|] d H; try reflexivity. discriminate. }
  rewrite (Hor subject _ Hs), (Hor body _ Hb). reflexivity.
Qed.

Lemma empty_overrides_get_the_defaults_witness :
  create_email_message Worlds.service "r1@x.com" "/srv/report.pdf" (Some "") (Some "")
    Worlds.calm []
  = (Ret {| msg_From := sender_email Worlds.service;
            msg_To := "r1@x.com";
            msg_Subject := default_subject (basename "/srv/report.pdf");
            msg_parts := [TextPart (default_body (basename "/srv/report.pdf"));
                          attachment_part "/srv/report.pdf" "DATA"] |},
     [] ++ [EvReadBytes "/srv/report.pdf"]).
Proof.
  apply (@empty_overrides_get_the_defaults Worlds.calm Worlds.service "r1@x.com"
           "/srv/report.pdf" (Some "") (Some "") [] "DATA").
  - reflexivity.
  - reflexivity.
  - reflexivity.
Defined.

Lemma send_file_open_failure_witness :
  exists t,
    send_file Worlds.service "/srv/report.pdf" ["r1@x.com"; "r2@x.com"] None None
      (refusing_connections (OtherError "connection refused") Worlds.calm) []
    = (Raise (Error (OtherError "connection refused")), [] ++ t)
    /\ forallb before_recipients t = true.
Proof.
  apply (@send_file_open_failure
           (refusing_connections (OtherError "connection refused") Worlds.calm)
           Worlds.service "/srv/report.pdf" ["r1@x.com"; "r2@x.com"] None None []
           (OtherError "connection refused")).
  - split; reflexivity.
  - left. reflexivity.
Defined.

End DeliveryProps.

(** ** Further properties of [main] of file_delivery_script *)

Module MainProps.
Import Py Eff EffFacts MainFacts FileDelivery Vocabulary.

Lemma or_else_truthy o d : truthy_opt o = true -> Some (or_else o d) = o.
Proof. destruct o as [[|c s]|]; try discriminate. reflexivity. Qed.

Lemma or_else_truthy_is o d : truthy_opt o = true -> truthy (or_else o d) = true.
Proof. destruct o as [[|c s]|]; try discriminate. reflexivity. Qed.

Lemma or_else_default o d : truthy_opt o = false -> or_else o d = d.
Proof. destruct o as [[|c s]|]; try discriminate; reflexivity. Qed.

(** Without credentials [send_file] stops at once. *)
Lemma send_file_unconfigured w self file_path delivery_list subject body h :
  truthy_opt (sender_email self) = false \/ truthy_opt (sender_password self) = false ->
  send_file self file_path delivery_list subject body w h = (Raise credentials_error, h).
Proof.
  intros H. unfold send_file.
  replace (negb (truthy_opt (sender_email self))
           || negb (truthy_opt (sender_password self))) with true; [reflexivity|].
  destruct H as [-> | ->]; simpl; auto using orb_true_r.
Qed.

(** X13.  Credentials given on the command line win over the configuration
    file and are never asked for: [main] builds its service from them and
    makes no request to the console. *)
Theorem command_line_credentials_win args w h :
  truthy_opt (arg_sender_email args) = true ->
  truthy_opt (arg_sender_password args) = true ->
  exists t,
    snd (main_service args w h) = h ++ t
    /\ filter is_console t = []
    /\ (forall svc, fst (main_service args w h) = Ret svc ->
                    sender_email svc = arg_sender_email args
                    /\ sender_password svc = arg_sender_password args).
Proof.
  intros He Hp. unfold main_service, load_config, bind, query, request, ret.
  destruct (path_exists w h (arg_config args)).
  - destruct (read_config w (h ++ [EvPathExists (arg_config args)]) (arg_config args))
      as [c|e|]; cbn [to_res].
    + rewrite !or_else_truthy_is by assumption. cbn [negb ret].
      exists [EvPathExists (arg_config args); EvReadConfig (arg_config args)].
      rewrite <- app_assoc. repeat split; auto.
      * inversion H; subst. cbn [sender_email configure_email].
        apply or_else_truthy; assumption.
      * inversion H; subst. cbn [sender_password configure_email].
        apply or_else_truthy; assumption.
    + exists [EvPathExists (arg_config args); EvReadConfig (arg_config args)].
      rewrite <- app_assoc. repeat split; auto; discriminate.
    + exists [EvPathExists (arg_config args); EvReadConfig (arg_config args)].
      rewrite <- app_assoc. repeat split; auto; discriminate.
  - rewrite !or_else_truthy_is by assumption. cbn [negb ret].
    exists [EvPathExists (arg_config args)]. repeat split; auto.
    + inversion H; subst. cbn [sender_email configure_email].
      apply or_else_truthy; assumption.
    + inversion H; subst. cbn [sender_password configure_email].
      apply or_else_truthy; assumption.
Qed.

Lemma command_line_credentials_win_witness :
  let args :=
    {| arg_file := "/srv/report.pdf"; arg_delivery_list := "list.txt";
       arg_subject := None; arg_body := None; arg_config := "config.ini";
       arg_sender_email := Some "cli@x.com"; arg_sender_password := Some "pw" |} in
  exists t,
    snd (main_service args Worlds.calm []) = [] ++ t
    /\ filter is_console t = []
    /\ (forall svc, fst (main_service args Worlds.calm []) = Ret svc ->
                    sender_email svc = Some "cli@x.com"
                    /\ sender_password svc = Some "pw").
Proof.
  apply (@command_line_credentials_win
           {| arg_file := "/srv/report.pdf"; arg_delivery_list := "list.txt";
              arg_subject := None; arg_body := None; arg_config := "config.ini";
              arg_sender_email := Some "cli@x.com"; arg_sender_password := Some "pw" |}
           Worlds.calm []).
  - reflexivity.
  - reflexivity.
Defined.

(** A run whose service has no credentials ends before the transport. *)
Lemma main_without_credentials args w :
  (forall svc h1, main_service args w [] = (Ret svc, h1) ->
                  truthy_opt (sender_email svc) = false
                  \/ truthy_opt (sender_password svc) = false) ->
  exit_code (fst (run (main args) w)) = 1%Z
  /\ filter is_transport (snd (run (main args) w)) = [].
Proof.
  intros Hsvc.
  unfold run, main, main_try, main_deliver, try_except, bind.
  destruct (main_service_local args w []) as (t & Ht & Hq).
  pose proof (main_service_no_exit args w []) as Hexit.
  destruct (main_service args w []) as [[svc|e] h1] eqn:Hms; simpl in Ht; subst h1.
  2:{ apply forallb_local_transport in Hq. destruct Hq as [Hq _].
      destruct e as [|c|e]; simpl; auto. destruct (Hexit c eq_refl). }
  specialize (Hsvc svc t eq_refl).
  destruct (validate_file_local svc (arg_file args) w t) as (t' & Ht' & Hq').
  pose proof (validate_file_no_exit svc (arg_file args) w t) as Hexit'.
  apply forallb_local_transport in Hq, Hq'. destruct Hq as [Hq _], Hq' as [Hq' _].
  destruct (validate_file svc _ w t) as [[ok|e] h2]; simpl in Ht'; subst h2.
  2:{ destruct e as [|c|e]; simpl; rewrite ?filter_app, ?Hq, ?Hq'; auto.
      destruct (Hexit' c eq_refl). }
  destruct ok; simpl; [|rewrite filter_app, Hq, Hq'; auto].
  rewrite load_delivery_list_run.
  destruct (read_lines w (t ++ t') _) as [lines|e|]; simpl;
    try (rewrite !filter_app, Hq, Hq'; auto).
  destruct (collect_emails lines) as [|a l]; simpl.
  - rewrite !filter_app, Hq, Hq'. auto.
  - rewrite (send_file_unconfigured _ _ _ _ _ _ _ Hsvc). simpl.
    rewrite !filter_app, Hq, Hq'. auto.
Qed.

(** X14.  When neither the command line nor the configuration file gives a
    sender address and the prompt is answered with an empty line, [main] exits
    with code 1 and makes no transport request. *)
Theorem blank_sender_stops_before_transport args w :
  truthy_opt (arg_sender_email args) = false ->
  (forall h p, match read_config w h p with
               | Ok c => truthy_opt (ini_sender_email c) = false
               | _ => True
               end) ->
  (forall h p, console_input w h p = Ok EmptyString) ->
  exit_code (fst (run (main args) w)) = 1%Z
  /\ filter is_transport (snd (run (main args) w)) = [].
Proof.
  intros Harg Hcfg Hin. apply main_without_credentials.
  intros svc h1. unfold main_service, load_config, bind, query, request, ret.
  assert (Hfb : forall o : option string,
             truthy_opt o = false -> truthy (fallback o "") = false).
  { intros [[|c s]|] H; try reflexivity. discriminate. }
  destruct (path_exists w [] (arg_config args)).
  - specialize (Hcfg ([] ++ [EvPathExists (arg_config args)]) (arg_config args)).
    destruct (read_config w _ _) as [c|e|]; cbn [to_res]; try discriminate.
    rewrite (or_else_default _ _ Harg).
    cbn [cfg_sender_email]. rewrite (Hfb _ Hcfg). cbn [negb]. rewrite Hin. cbn [to_res].
    match goal with
    | |- context [if ?b then _ else _] => destruct b
    end.
    + destruct (console_getpass w _ _); cbn [to_res]; try discriminate.
      intros H. inversion H; subst. left. reflexivity.
    + intros H. inversion H; subst. left. reflexivity.
  - rewrite (or_else_default _ _ Harg).
    cbn [default_config cfg_sender_email cfg_sender_password truthy negb].
    rewrite Hin. cbn [to_res].
    match goal with
    | |- context [if ?b then _ else _] => destruct b
    end.
    + destruct (console_getpass w _ _); cbn [to_res]; try discriminate.
      intros H. inversion H; subst. left. reflexivity.
    + intros H. inversion H; subst. left. reflexivity.
Qed.

Lemma blank_sender_stops_before_transport_witness :
  exit_code (fst (run (main Worlds.args) (without_credentials Worlds.calm))) = 1%Z
  /\ filter is_transport
       (snd (run (main Worlds.args) (without_credentials Worlds.calm))) = [].
Proof.
  apply (@blank_sender_stops_before_transport Worlds.args
           (without_credentials Worlds.calm)).
  - reflexivity.
  - intros h p. reflexivity.
  - intros h p. reflexivity.
Defined.

Lemma truthy_or_else o d : truthy d = true -> truthy (or_else o d) = true.
Proof. destruct o as [[|c s]|]; auto. Qed.

Lemma truthy_fallback o : truthy_opt o = true -> truthy (fallback o "") = true.
Proof. destruct o as [s|]; auto; discriminate. Qed.

(** X15.  When the configuration gives the credentials, the file is valid,
    the delivery list holds at least one address, the file can be read and
    the server accepts everything, [main] exits with code 0 after sending one
    message to each loaded address, in the order of the list. *)
Theorem main_serves_every_address args w lines :
  (forall h, path_exists w h (arg_config args) = true) ->
  config_has_credentials w ->
  file_is_valid w (arg_file args) ->
  (forall h, read_lines w h (arg_delivery_list args) = Ok lines) ->
  collect_emails lines <> [] ->
  readable w -> server_accepts w ->
  exit_code (fst (run (main args) w)) = 0%Z
  /\ sendmail_recipients (snd (run (main args) w)) = collect_emails lines.
Proof.
  intros Hcfgfile Hcred (Hex & Hisf & Hopen) Hlines Hne Hread Hsrv.
  assert (Hrun : exists t, main args w [] = (Raise (SystemExit 0), t)
                           /\ sendmail_recipients t = collect_emails lines);
    [|destruct Hrun as (t & Hrun & Hrec); unfold run; rewrite Hrun; auto].
  unfold main, main_try, main_deliver, main_service, load_config,
    validate_file, try_except, bind, query, request.
  rewrite Hcfgfile.
  destruct (Hcred ([] ++ [EvPathExists (arg_config args)]) (arg_config args))
    as (c & -> & Hemail & Hpass).
  cbn [to_res ret cfg_sender_email cfg_sender_password cfg_smtp_server cfg_smtp_port].
  rewrite (truthy_or_else (arg_sender_email args) _ (truthy_fallback _ Hemail)).
  rewrite (truthy_or_else (arg_sender_password args) _ (truthy_fallback _ Hpass)).
  cbn [negb ret].
  set (svc := configure_email _ _ _).
  assert (Hconf : configured svc).
  { split; unfold svc; cbn [sender_email sender_password configure_email truthy_opt];
      auto using truthy_or_else, truthy_fallback. }
  unfold ret at 1 2 3.
  rewrite Hex. cbn [negb]. rewrite Hisf. cbn [negb]. rewrite Hopen. cbn [to_res ret negb]. cbv beta.
  rewrite load_delivery_list_run, Hlines.
  destruct (collect_emails lines) as [|a l] eqn:Hl; [congruence|].
  rewrite (DeliveryProps.send_file_after_open _ _ _ _ Hconf
             (@DeliveryProps.server_accepts_opens w svc _ Hsrv)).
  destruct Hsrv as (_ & _ & _ & Hsend & Hquit).
  match goal with
  | |- context [send_loop svc ?f ?s ?b (a :: l) ?r w ?hh] =>
      destruct (@DeliveryProps.send_loop_all_sent w svc f s b Hread Hsend (a :: l) r hh)
        as (t & -> & Hrec & _)
  end.
  rewrite Hquit. unfold sys_exit, raise.
  cbn [successful failed List.length Nat.eqb fst snd is_KeyboardInterrupt is_Exception
         orb app].
  eexists. split; [reflexivity|].
  unfold sendmail_recipients in *. cbn [flat_map app].
  rewrite !flat_map_app, Hrec. simpl. rewrite app_nil_r. reflexivity.
Qed.

Lemma main_serves_every_address_witness :
  exit_code (fst (run (main Worlds.args) Worlds.calm)) = 0%Z
  /\ sendmail_recipients (snd (run (main Worlds.args) Worlds.calm))
     = collect_emails Worlds.three.
Proof.
  apply (@main_serves_every_address Worlds.args Worlds.calm Worlds.three).
  - reflexivity.
  - intros h p. eexists. repeat split.
  - repeat split.
  - reflexivity.
  - discriminate.
  - intros h p. exists "DATA". reflexivity.
  - repeat split.
Defined.

End MainProps.

(** ** Further properties of email_sender *)

Module SenderProps.
Import Py Eff EffFacts MainFacts EmailSender Vocabulary.

(** X16.  When the loop of [main] ends, every recipient was counted once:
    the two counters grew, together, by the number of recipients. *)
Theorem main_loop_counts_every_recipient cfg files recipients :
  forall s f w h s' f' h',
    main_loop cfg files recipients s f w h = (Ret (s', f'), h') ->
    (s' + f' = s + f + List.length recipients)%nat /\ (s <= s')%nat /\ (f <= f')%nat.
Proof.
  induction recipients as [|r rest IH]; intros s f w h s' f' h' Hrun.
  - simpl in Hrun. inversion Hrun; subst. simpl. lia.
  - cbn [main_loop] in Hrun. unfold bind in Hrun.
    destruct (compose _ w h) as [[msg|e] h1]; [|discriminate].
    destruct (attach_all msg files w h1) as [[[msg' ok]|e] h2]; [|discriminate].
    cbn [fst snd] in Hrun. destruct ok; cbn [negb] in Hrun.
    + destruct (send_email _ _ _ _ msg' w h2) as [[sent|e] h3]; [|discriminate].
      destruct sent; apply IH in Hrun; simpl; lia.
    + apply IH in Hrun. simpl. lia.
Qed.

Lemma main_loop_counts_every_recipient_witness :
  (1 + 1 = 0 + 0 + List.length ["r1@x.com"; "r2@x.com"])%nat /\ (0 <= 1)%nat /\ (0 <= 1)%nat.
Proof.
  apply (@main_loop_counts_every_recipient Worlds.email_config ["files_to_send/a.txt"]
           ["r1@x.com"; "r2@x.com"] 0 0
           (Worlds.make Worlds.two Worlds.same_bytes Worlds.reject_r2) [] 1 1
           (snd (main_loop Worlds.email_config ["files_to_send/a.txt"]
                   ["r1@x.com"; "r2@x.com"] 0 0
                   (Worlds.make Worlds.two Worlds.same_bytes Worlds.reject_r2) []))).
  reflexivity.
Defined.

(** X17.  With a configuration that lacks a required value or still holds a
    shipped placeholder, [main] returns [False] at once: no file is read and
    no session is opened. *)
Theorem unconfigured_sender_does_nothing cfg w h :
  ec_smtp_server cfg = EmptyString \/ ec_smtp_port cfg = 0%Z
  \/ ec_sender_email cfg = EmptyString \/ ec_sender_password cfg = EmptyString
  \/ ec_sender_email cfg = "your_email@gmail.com"
  \/ ec_sender_password cfg = "your_app_password" ->
  main cfg w h = (Ret false, h).
Proof.
  intros H.
  assert (Hv : validate_config cfg = false).
  { unfold validate_config.
    destruct H as [H|[H|[H|[H|[H|H]]]]]; rewrite H; cbn [truthy negb Z.eqb];
      rewrite ?String.eqb_refl;
      repeat match goal with
             | |- (if ?b then false else _) = false => destruct b; [reflexivity|]
             end; reflexivity. }
  unfold main, try_except. rewrite Hv. reflexivity.
Qed.

Lemma unconfigured_sender_does_nothing_witness :
  main {| ec_smtp_server := "smtp.gmail.com"; ec_smtp_port := 587;
          ec_sender_email := "your_email@gmail.com";
          ec_sender_password := "your_app_password";
          ec_sender_name := Some "Your Name" |} Worlds.calm []
  = (Ret false, []).
Proof.
  apply (@unconfigured_sender_does_nothing
           {| ec_smtp_server := "smtp.gmail.com"; ec_smtp_port := 587;
              ec_sender_email := "your_email@gmail.com";
              ec_sender_password := "your_app_password";
              ec_sender_name := Some "Your Name" |} Worlds.calm []).
  right. right. right. right. left. reflexivity.
Defined.

(** X18.  When the folder of files is missing or holds no file, [main] does
    not succeed and makes no transport request. *)
Theorem no_files_no_transport cfg w :
  (forall h, path_exists w h FILES_FOLDER = false)
  \/ (forall h, list_files w h FILES_FOLDER = Ok []) ->
  fst (run (main cfg) w) <> Ret true
  /\ filter is_transport (snd (run (main cfg) w)) = [].
Proof.
  intros H. unfold run, main, try_except, bind.
  destruct (negb (validate_config cfg)); [simpl; split; [discriminate|reflexivity]|].
  rewrite load_recipients_run.
  destruct (read_lines w [] RECIPIENTS_FILE) as [lines|e|];
    try (simpl; split; [discriminate|reflexivity]).
  destruct (select_recipients lines) as [|r rs];
    [simpl; split; [discriminate|reflexivity]|].
  unfold get_files_to_send, try_except, bind, query, request, raise.
  destruct H as [H|H].
  - rewrite H. simpl. split; [discriminate|reflexivity].
  - destruct (path_exists w _ FILES_FOLDER); simpl.
    + rewrite H. simpl. split; [discriminate|reflexivity].
    + split; [discriminate|reflexivity].
Qed.

Lemma no_files_no_transport_witness :
  let w := {| path_exists := fun _ _ => false;
              path_isfile := path_isfile Worlds.calm; open_read := open_read Worlds.calm;
              read_bytes := read_bytes Worlds.calm; read_lines := read_lines Worlds.calm;
              read_config := read_config Worlds.calm; list_files := list_files Worlds.calm;
              console_input := console_input Worlds.calm;
              console_getpass := console_getpass Worlds.calm;
              smtp_connect := smtp_connect Worlds.calm;
              smtp_starttls := smtp_starttls Worlds.calm;
              smtp_login := smtp_login Worlds.calm;
              smtp_sendmail := smtp_sendmail Worlds.calm;
              smtp_quit := smtp_quit Worlds.calm |} in
  fst (run (main Worlds.email_config) w) <> Ret true
  /\ filter is_transport (snd (run (main Worlds.email_config) w)) = [].
Proof.
  apply (@no_files_no_transport Worlds.email_config
           {| path_exists := fun _ _ => false;
              path_isfile := path_isfile Worlds.calm; open_read := open_read Worlds.calm;
              read_bytes := read_bytes Worlds.calm; read_lines := read_lines Worlds.calm;
              read_config := read_config Worlds.calm; list_files := list_files Worlds.calm;
              console_input := console_input Worlds.calm;
              console_getpass := console_getpass Worlds.calm;
              smtp_connect := smtp_connect Worlds.calm;
              smtp_starttls := smtp_starttls Worlds.calm;
              smtp_login := smtp_login Worlds.calm;
              smtp_sendmail := smtp_sendmail Worlds.calm;
              smtp_quit := smtp_quit Worlds.calm |}).
  left. intros h. reflexivity.
Defined.

(** X19.  When the server refuses the message after the login, [send_email]
    returns [False] and never requests [quit]: the session it opened for this
    message is left open. *)
Theorem refused_message_leaves_the_session_open server port sender pw msg w h e :
  smtp_connect w h server port = Ok tt ->
  smtp_starttls w (h ++ [EvConnect server port]) = Ok tt ->
  smtp_login w (h ++ [EvConnect server port; EvStartTLS]) sender pw = Ok tt ->
  smtp_sendmail w (h ++ [EvConnect server port; EvStartTLS; EvLogin sender pw])
    sender (msg_To msg) msg = Fails e ->
  send_email server port sender pw msg w h
  = (Ret false,
     h ++ [EvConnect server port; EvStartTLS; EvLogin sender pw;
           EvSendmail sender (msg_To msg) msg]).
Proof.
  intros Hc Ht Hl Hs. unfold send_email, try_except, bind, request, ret.
  rewrite Hc. cbn [to_res]. rewrite Ht. cbn [to_res].
  rewrite <- ?app_assoc. cbn [app]. rewrite Hl. cbn [to_res].
  rewrite <- ?app_assoc. cbn [app]. rewrite Hs. cbn [to_res is_Exception].
  rewrite <- ?app_assoc. reflexivity.
Qed.

Lemma refused_message_leaves_the_session_open_witness :
  let msg := {| msg_From := Some "me@x.com"; msg_To := "r2@x.com";
                msg_Subject := "Files for Review"; msg_parts := [] |} in
  send_email "mail.x.com" 587 "me@x.com" "secret" msg
    (Worlds.make Worlds.two Worlds.same_bytes Worlds.reject_r2) []
  = (Ret false,
     [] ++ [EvConnect "mail.x.com" 587; EvStartTLS; EvLogin "me@x.com" "secret";
            EvSendmail "me@x.com" (msg_To msg) msg]).
Proof.
  apply (@refused_message_leaves_the_session_open "mail.x.com" 587 "me@x.com" "secret"
           {| msg_From := Some "me@x.com"; msg_To := "r2@x.com";
              msg_Subject := "Files for Review"; msg_parts := [] |}
           (Worlds.make Worlds.two Worlds.same_bytes Worlds.reject_r2) []
           (OtherError "recipient refused")).
  - reflexivity.
  - reflexivity.
  - reflexivity.
  - reflexivity.
Defined.

(** X20.  [send_email] and [attach_file_to_email] never raise an
    [Exception]: every error becomes the returned flag, and a failed
    attachment leaves the message as it was. *)
Theorem sender_helpers_swallow_errors server port sender pw msg file_path w h :
  (forall e, fst (send_email server port sender pw msg w h) <> Raise (Error e))
  /\ (forall e, fst (attach_file_to_email msg file_path w h) <> Raise (Error e))
  /\ (forall msg', fst (attach_file_to_email msg file_path w h) = Ret (msg', false) ->
                   msg' = msg).
Proof.
  split; [|split].
  - intros e. unfold send_email, try_except, bind, request, ret.
    destruct (smtp_connect w h server port); cbn [to_res is_Exception fst];
      try discriminate.
    destruct (smtp_starttls w _); cbn [to_res is_Exception fst]; try discriminate.
    destruct (smtp_login w _ _ _); cbn [to_res is_Exception fst]; try discriminate.
    destruct (smtp_sendmail w _ _ _ _); cbn [to_res is_Exception fst]; try discriminate.
    destruct (smtp_quit w _); cbn [to_res is_Exception fst]; discriminate.
  - intros e. unfold attach_file_to_email, try_except, bind, request, ret.
    destruct (read_bytes w h file_path); cbn [to_res is_Exception fst]; discriminate.
  - intros msg'. unfold attach_file_to_email, try_except, bind, request, ret.
    destruct (read_bytes w h file_path); cbn [to_res is_Exception fst];
      intros H; inversion H; reflexivity.
Qed.

Lemma reads_are_no_session files :
  filter is_connect (map EvReadBytes files) = []
  /\ filter is_quit (map EvReadBytes files) = []
  /\ sendmail_recipients (map EvReadBytes files) = [].
Proof. induction files as [|f files (H1 & H2 & H3)]; simpl; auto. Qed.

(** With a readable folder every file is attached, in order. *)
Lemma attach_all_readable w (Hread : readable w) files :
  forall msg h,
  exists msg',
    attach_all msg files w h = (Ret (msg', true), h ++ map EvReadBytes files)
    /\ List.length (msg_parts msg') = (List.length (msg_parts msg) + List.length files)%nat
    /\ msg_To msg' = msg_To msg.
Proof.
  induction files as [|f files IH]; intros msg h.
  - exists msg. simpl. rewrite app_nil_r, Nat.add_0_r. auto.
  - cbn [attach_all]. unfold bind, attach_file_to_email, try_except, bind, request, ret.
    destruct (Hread h f) as (data & ->). cbn [to_res fst snd negb].
    destruct (IH (attach msg (Attachment "application/octet-stream" data
                                ("attachment; filename= " ++ basename f)))
                (h ++ [EvReadBytes f])) as (msg' & -> & Hlen & Hto).
    exists msg'. rewrite <- app_assoc. split; [reflexivity|].
    rewrite Hlen, Hto. unfold attach. cbn [msg_parts msg_To].
    rewrite length_app. simpl. split; [lia|reflexivity].
Qed.

Lemma send_email_accepted w (Hsrv : server_accepts w) server port sender pw msg h :
  send_email server port sender pw msg w h
  = (Ret true,
     h ++ [EvConnect server port; EvStartTLS; EvLogin sender pw;
           EvSendmail sender (msg_To msg) msg; EvQuit]).
Proof.
  destruct Hsrv as (Hc & Ht & Hl & Hs & Hq).
  unfold send_email, try_except, bind, request, ret.
  rewrite Hc. cbn [to_res]. rewrite Ht. cbn [to_res]. rewrite Hl. cbn [to_res].
  rewrite Hs. cbn [to_res]. rewrite Hq. cbn [to_res].
  rewrite <- !app_assoc. reflexivity.
Qed.

(** The shipped body is composed for every recipient. *)
Lemma compose_shipped_body sender recipient name w h :
  exists msg,
    compose (create_email_message sender recipient EMAIL_SUBJECT EMAIL_BODY name) w h
    = (Ret msg, h)
    /\ msg_To msg = recipient.
Proof.
  unfold create_email_message.
  destruct (ComposeClaims.EMAIL_BODY_formats name) as (head & ->).
  eexists. split; reflexivity.
Qed.

(** X21.  email_sender opens one session for every recipient: when the
    files can be read and the server accepts everything, the loop of [main]
    counts every recipient as a success, and connects and quits as many times
    as there are recipients, sending to them in the order of the list. *)
Theorem one_session_per_recipient cfg files w (Hread : readable w)
    (Hsrv : server_accepts w) recipients :
  forall s f h,
  exists t,
    main_loop cfg files recipients s f w h
    = (Ret ((s + List.length recipients)%nat, f), h ++ t)
    /\ List.length (filter is_connect t) = List.length recipients
    /\ List.length (filter is_quit t) = List.length recipients
    /\ sendmail_recipients t = recipients.
Proof.
  induction recipients as [|r rest IH]; intros s f h.
  - exists []. simpl. rewrite app_nil_r, Nat.add_0_r. auto.
  - cbn [main_loop]. unfold bind at 1.
    destruct (compose_shipped_body (ec_sender_email cfg) r (get_sender_name cfg) w h)
      as (msg & -> & Hto).
    unfold bind at 1.
    destruct (attach_all_readable Hread files msg h) as (msg' & -> & _ & Hto').
    cbn [fst snd negb]. unfold bind at 1.
    rewrite (send_email_accepted Hsrv).
    destruct (IH (S s) f
                ((h ++ map EvReadBytes files)
                   ++ [EvConnect (ec_smtp_server cfg) (ec_smtp_port cfg); EvStartTLS;
                       EvLogin (ec_sender_email cfg) (ec_sender_password cfg);
                       EvSendmail (ec_sender_email cfg) (msg_To msg') msg'; EvQuit]))
      as (t & -> & Hconn & Hquit & Hrec).
    exists (map EvReadBytes files
              ++ [EvConnect (ec_smtp_server cfg) (ec_smtp_port cfg); EvStartTLS;
                  EvLogin (ec_sender_email cfg) (ec_sender_password cfg);
                  EvSendmail (ec_sender_email cfg) (msg_To msg') msg'; EvQuit] ++ t).
    destruct (reads_are_no_session files) as (R1 & R2 & R3).
    rewrite <- !app_assoc. split; [|split; [|split]].
    + cbn [List.length]. rewrite Nat.add_succ_r. reflexivity.
    + rewrite filter_app, R1. simpl. rewrite Hconn. reflexivity.
    + rewrite filter_app, R2. simpl. rewrite Hquit. reflexivity.
    + unfold sendmail_recipients in *. rewrite flat_map_app, R3. simpl.
      rewrite Hrec, Hto', Hto. reflexivity.
Qed.

Lemma one_session_per_recipient_witness :
  exists t,
    main_loop Worlds.email_config ["files_to_send/a.txt"] ["r1@x.com"; "r2@x.com"]
      0 0 Worlds.calm []
    = (Ret ((0 + List.length ["r1@x.com"; "r2@x.com"])%nat, 0%nat), [] ++ t)
    /\ List.length (filter is_connect t) = List.length ["r1@x.com"; "r2@x.com"]
    /\ List.length (filter is_quit t) = List.length ["r1@x.com"; "r2@x.com"]
    /\ sendmail_recipients t = ["r1@x.com"; "r2@x.com"].
Proof.
  apply (@one_session_per_recipient Worlds.email_config ["files_to_send/a.txt"]
           Worlds.calm).
  - intros h p. exists "DATA". reflexivity.
  - repeat split.
Defined.

(** X22.  The files are attached in order and the first one that cannot be
    read ends the attaching: the files after it are not read, the flag is
    [False], and the message is the one given with, after its parts, one
    attachment for every file read before the failure, in the order of the
    files, each with the bytes and the name of its file. *)
Theorem attaching_stops_at_the_first_failure w msg before bad after e
    (bytes : string -> string) :
  (forall h p, In p before -> read_bytes w h p = Ok (bytes p)) ->
  (forall h, read_bytes w h bad = Fails e) ->
  forall h,
    attach_all msg (before ++ bad :: after) w h
    = (Ret ({| msg_From := msg_From msg;
               msg_To := msg_To msg;
               msg_Subject := msg_Subject msg;
               msg_parts :=
                 msg_parts msg
                 ++ map (fun p => Attachment "application/octet-stream" (bytes p)
                                    ("attachment; filename= " ++ basename p))
                      before |}, false),
       h ++ map EvReadBytes (before ++ [bad])).
Proof.
  intros Hok Hbad. revert msg.
  induction before as [|f before IH]; intros msg h.
  - cbn [app attach_all map].
    unfold bind, attach_file_to_email, try_except, bind, request, ret.
    rewrite Hbad. cbn [to_res is_Exception fst snd negb]. rewrite app_nil_r.
    destruct msg; reflexivity.
  - cbn [app attach_all].
    unfold bind at 1, attach_file_to_email, try_except, bind, request, ret.
    rewrite (Hok h f (or_introl eq_refl)). cbn [to_res fst snd negb].
    rewrite (IH (fun h p Hin => Hok h p (or_intror Hin))).
    unfold attach. cbn [msg_From msg_To msg_Subject msg_parts map].
    rewrite <- !app_assoc. reflexivity.
Qed.

Lemma attaching_stops_at_the_first_failure_witness :
  attach_all {| msg_From := Some "me@x.com"; msg_To := "r1@x.com";
                msg_Subject := "Files for Review"; msg_parts := [TextPart "Hello"] |}
    (["in/a.txt"; "in/b.txt"] ++ "in/c.txt" :: ["in/d.txt"])
    (with_unreadable "in/c.txt" (PermissionError "denied") Worlds.calm) []
  = (Ret ({| msg_From := Some "me@x.com"; msg_To := "r1@x.com";
             msg_Subject := "Files for Review";
             msg_parts :=
               [TextPart "Hello"]
               ++ map (fun p => Attachment "application/octet-stream" "DATA"
                                  ("attachment; filename= " ++ basename p))
                    ["in/a.txt"; "in/b.txt"] |}, false),
     [] ++ map EvReadBytes (["in/a.txt"; "in/b.txt"] ++ ["in/c.txt"])).
Proof.
  refine (@attaching_stops_at_the_first_failure
            (with_unreadable "in/c.txt" (PermissionError "denied") Worlds.calm)
            {| msg_From := Some "me@x.com"; msg_To := "r1@x.com";
               msg_Subject := "Files for Review"; msg_parts := [TextPart "Hello"] |}
            ["in/a.txt"; "in/b.txt"] "in/c.txt" ["in/d.txt"] (PermissionError "denied")
            (fun _ => "DATA") _ _ []).
  - intros h p [<-|[<-|[]]]; reflexivity.
  - intros h. reflexivity.
Defined.

(** Doubled braces are literal text. *)
Lemma format_escape n s : Format.format_from n Format.Literal (escape s) = Format.Done s.
Proof.
  induction s as [|c r IH]; [reflexivity|].
  cbn [escape]. destruct (Ascii.eqb c "{"%char) eqn:Hopen.
  - apply Ascii.eqb_eq in Hopen. subst c. cbn [orb].
    cbn [Format.format_from Ascii.eqb Bool.eqb]. rewrite IH. reflexivity.
  - destruct (Ascii.eqb c "}"%char) eqn:Hclose; cbn [orb].
    + apply Ascii.eqb_eq in Hclose. subst c.
      cbn [Format.format_from Ascii.eqb Bool.eqb]. rewrite IH. reflexivity.
    + cbn [Format.format_from]. rewrite Hopen, Hclose, IH. reflexivity.
Qed.

(** X23.  A body in which every brace is doubled comes out as the text with
    single braces: doubling is the way to put a literal brace into the
    body. *)
Theorem doubled_braces_are_literal sender recipient subject text name :
  create_email_message sender recipient subject (escape text) name
  = Format.Done {| msg_From := Some (if truthy name
                                     then (name ++ " <" ++ sender ++ ">")%string
                                     else sender);
                   msg_To := recipient;
                   msg_Subject := subject;
                   msg_parts := [TextPart text] |}.
Proof.
  unfold create_email_message, Format.format. rewrite format_escape. reflexivity.
Qed.



End SenderProps.

(** ** Properties of config_setup *)

Module SetupProps.
Import Py ConfigSetup.

Lemma providers_port choice p : providers choice = Some p -> smtp_port p = 587%Z.
Proof.
  unfold providers.
  repeat match goal with
         | |- context [if ?b then _ else _] => destruct b
         end; intros H; inversion H; reflexivity.
Qed.

(** X25.  [get_smtp_settings] skips every answer that is not one of the four
    choices and returns the provider of the first one that is, leaving the
    rest of the terminal unread; whichever it returns, its port is 587. *)
Theorem first_valid_choice_wins invalid good rest p file :
  Forall (fun text => providers (strip text) = None) invalid ->
  providers (strip good) = Some p ->
  get_smtp_settings {| keys := map Line invalid ++ Line good :: rest; script := file |}
  = (Ret p, {| keys := rest; script := file |})
  /\ smtp_port p = 587%Z.
Proof.
  intros Hinv Hgood. split; [|exact (providers_port _ Hgood)].
  unfold get_smtp_settings. cbn [keys script].
  assert (Hchoose : choose (map Line invalid ++ Line good :: rest) = (Ret p, rest)).
  { induction Hinv as [|text invalid Htext _ IH]; cbn [map app choose].
    - rewrite Hgood. reflexivity.
    - rewrite Htext. exact IH. }
  rewrite Hchoose. reflexivity.
Qed.

Lemma first_valid_choice_wins_witness :
  get_smtp_settings
    {| keys := map Line ["5"; "gmail"] ++ Line " 2 " :: [Line "me@x.com"];
       script := {| content := None; can_read := true; can_write := true |} |}
  = (Ret outlook,
     {| keys := [Line "me@x.com"];
        script := {| content := None; can_read := true; can_write := true |} |})
  /\ smtp_port outlook = 587%Z.
Proof.
  apply (@first_valid_choice_wins ["5"; "gmail"] " 2 " [Line "me@x.com"] outlook
           {| content := None; can_read := true; can_write := true |}).
  - repeat constructor.
  - reflexivity.
Defined.

Lemma replace_absent old new s : occurs old s = false -> replace old new s = s.
Proof.
  unfold replace. induction s as [|c r IH]; intros H; [reflexivity|].
  cbn [occurs] in H. apply orb_false_iff in H. destruct H as [Hstart Hocc].
  cbn [replace_from]. rewrite Hstart, (IH Hocc). reflexivity.
Qed.

(** X26.  On a script that holds none of the five placeholders, as after a
    first setup, [update_email_script] applies none of the new settings: when
    the write completes, the file holds its old text with the line ends
    turned into line feeds, and the call returns [True] exactly when the
    success line could be printed. *)
Theorem second_setup_changes_nothing o server port email pw sender_name st stored :
  content (script st) = Some stored ->
  can_read (script st) = true -> can_write (script st) = true ->
  no_placeholder (universal_newlines stored) ->
  write_stops o (universal_newlines stored) = None ->
  update_email_script o server port email pw sender_name st
  = (Ret (match print_updated o with None => true | Some _ => false end),
     with_content st (universal_newlines stored)).
Proof.
  intros Hc Hr Hw (H1 & H2 & H3 & H4 & H5) Hwrite.
  unfold update_email_script. rewrite Hc, Hr, Hw. cbn [negb].
  unfold rewrite_config.
  rewrite (replace_absent _ _ _ H1), (replace_absent _ _ _ H2),
    (replace_absent _ _ _ H3), (replace_absent _ _ _ H4), (replace_absent _ _ _ H5).
  rewrite Hwrite. destruct (print_updated o); reflexivity.
Qed.

Lemma second_setup_changes_nothing_witness :
  let st := {| keys := [];
               script := {| content := Some configured_script;
                            can_read := true; can_write := true |} |} in
  update_email_script narrow_output "smtp.x.com" 25 "me@x.com" "secret" "Ann" st
  = (Ret (match print_updated narrow_output with None => true | Some _ => false end),
     with_content st (universal_newlines configured_script)).
Proof.
  apply (@second_setup_changes_nothing narrow_output "smtp.x.com" 25 "me@x.com" "secret"
           "Ann"
           {| keys := [];
              script := {| content := Some configured_script;
                           can_read := true; can_write := true |} |}
           configured_script).
  - reflexivity.
  - reflexivity.
  - reflexivity.
  - repeat split.
  - reflexivity.
Defined.

(** The line ends of that script come back as line feeds. *)
Example line_ends_are_normalised :
  universal_newlines configured_script
  = ("EMAIL_CONFIG = {" ++ nl ++ "'smtp_port': 465}" ++ nl)%string.
Proof. reflexivity. Qed.

Lemma keeps_unit A (a : A) : keeps_script (unit_T a).
Proof. intros st. reflexivity. Qed.

Lemma keeps_input : keeps_script input.
Proof. intros st. unfold input. destruct (keys st) as [|[text|] rest]; reflexivity. Qed.

Lemma keeps_get_smtp_settings : keeps_script get_smtp_settings.
Proof.
  intros st. unfold get_smtp_settings. destruct (choose (keys st)). reflexivity.
Qed.

Lemma keeps_bind A B (m : T A) (k : A -> T B) :
  keeps_script m -> (forall a, keeps_script (k a)) -> keeps_script (bind_T m k).
Proof.
  intros Hm Hk st. unfold bind_T. specialize (Hm st).
  destruct (m st) as [[a|e] st1]; cbn [snd] in *; [|exact Hm].
  rewrite (Hk a st1). exact Hm.
Qed.

Lemma keeps_ask_custom p : keeps_script (ask_custom p).
Proof.
  unfold ask_custom. destruct (String.eqb (name p) "Custom SMTP");
    [|apply keeps_unit].
  apply keeps_bind; [apply keeps_input|]. intros server_text.
  apply keeps_bind; [apply keeps_input|]. intros port_text. apply keeps_unit.
Qed.

Lemma writes_bind A (m : T A) (k : A -> T bool) :
  keeps_script m -> (forall a, writes_only_on_success (k a)) ->
  writes_only_on_success (bind_T m k).
Proof.
  intros Hm Hk st. unfold bind_T. specialize (Hm st).
  destruct (m st) as [[a|e] st1]; cbn [snd fst] in *; [|left; exact Hm].
  destruct (Hk a st1) as [H|H]; [left; congruence|right; exact H].
Qed.

Lemma writes_unit_false : writes_only_on_success (unit_T false).
Proof. intros st. left. reflexivity. Qed.

(** The confirmed branch of [main] when the two success lines are printed
    and no write stops half way. *)
Lemma writes_update o server port email pw sender_name :
  print_updated o = None -> print_complete o = None ->
  (forall text, write_stops o text = None) ->
  writes_only_on_success
    (bind_T (update_email_script o server port email pw sender_name)
       (fun updated =>
          if updated
          then bind_T (print_line (print_complete o)) (fun _ => unit_T true)
          else bind_T (print_line (print_failed o)) (fun _ => unit_T false))).
Proof.
  intros Hupdated Hcomplete Hwrite st. unfold bind_T, update_email_script.
  destruct (content (script st)) as [stored|].
  2:{ left. unfold print_line, unit_T. destruct (print_failed o); reflexivity. }
  destruct (can_read (script st)); cbn [negb].
  2:{ left. unfold print_line, unit_T. destruct (print_failed o); reflexivity. }
  destruct (can_write (script st)); cbn [negb].
  2:{ left. unfold print_line, unit_T. destruct (print_failed o); reflexivity. }
  rewrite Hwrite, Hupdated. unfold print_line, unit_T. rewrite Hcomplete.
  right. reflexivity.
Qed.

(** X27.  When the two success lines can be printed and no write stops half
    way, [main] never touches email_sender.py unless it returns [True]: after
    a run that is refused, interrupted, cut short or not confirmed, the
    script file is what it was. *)
Theorem setup_writes_only_on_success o st :
  print_updated o = None -> print_complete o = None ->
  (forall text, write_stops o text = None) ->
  script (snd (main o st)) = script st \/ fst (main o st) = Ret true.
Proof.
  intros Hupdated Hcomplete Hwrite.
  revert st. change (writes_only_on_success (main o)). unfold main.
  apply writes_bind; [apply keeps_get_smtp_settings|]. intros p.
  apply writes_bind; [apply keeps_ask_custom|]. intros server_port.
  apply writes_bind; [apply keeps_input|]. intros email_text.
  apply writes_bind; [apply keeps_input|]. intros name_text.
  apply writes_bind; [apply keeps_input|]. intros sender_password.
  cbv zeta.
  destruct (negb _); [apply writes_unit_false|].
  apply writes_bind; [apply keeps_input|]. intros confirm_text.
  destruct (String.eqb _ "y"); [apply writes_update; assumption|apply writes_unit_false].
Qed.

Lemma setup_writes_only_on_success_witness :
  let st := {| keys := [Line "1"; Line "me@x.com"; Line "Ann"; Line "secret"; CtrlC];
               script := {| content := Some "'smtp_port': 587"; can_read := true;
                            can_write := true |} |} in
  script (snd (main quiet st)) = script st \/ fst (main quiet st) = Ret true.
Proof.
  apply (@setup_writes_only_on_success quiet
           {| keys := [Line "1"; Line "me@x.com"; Line "Ann"; Line "secret"; CtrlC];
              script := {| content := Some "'smtp_port': 587"; can_read := true;
                           can_write := true |} |}).
  - reflexivity.
  - reflexivity.
  - intros text. reflexivity.
Defined.

(** When the output stream refuses the pictographs, a confirmed setup
    rewrites the file and [main] ends with the error of the line
    "Setup failed!"; and when the write stops half way, what it had written
    is all that is left of the file. *)
Example rewritten_without_success :
  let st := {| keys := [Line "1"; Line "me@x.com"; Line "Ann"; Line "secret"; Line "y"];
               script := {| content := Some "'sender_name': 'Your Name'";
                            can_read := true; can_write := true |} |} in
  main narrow_output st
  = (Raise (Error (OtherError "'ascii' codec can't encode character")),
     {| keys := [];
        script := {| content := Some "'sender_name': 'Ann'";
                     can_read := true; can_write := true |} |})
  /\ main {| print_updated := None; print_complete := None; print_failed := None;
             write_stops := fun _ => Some EmptyString |} st
     = (Ret false,
        {| keys := [];
           script := {| content := Some EmptyString;
                        can_read := true; can_write := true |} |}).
Proof. split; reflexivity. Qed.

(** The four providers. *)
Lemma provider_cases choice p :
  providers choice = Some p -> p = gmail \/ p = outlook \/ p = yahoo \/ p = custom.
Proof.
  unfold providers.
  repeat match goal with
         | |- context [if ?b then _ else _] => destruct b
         end; intros H; inversion H; auto.
Qed.

Lemma named_provider_has_server choice p :
  providers choice = Some p -> name p <> "Custom SMTP" -> truthy (smtp_server p) = true.
Proof.
  unfold providers.
  repeat match goal with
         | |- context [if ?b then _ else _] => destruct b
         end; intros H; inversion H; subst; auto.
  all: intros Hn; exfalso; apply Hn; reflexivity.
Qed.

(** X28.  A setup for one of the named providers whose last answer is
    anything but [y] or [Y], white space aside, returns [False] and leaves the
    script file alone. *)
Theorem unconfirmed_setup_writes_nothing o choice p email name_text pw confirm rest
    file :
  providers (strip choice) = Some p -> name p <> "Custom SMTP" ->
  truthy (strip email) = true -> truthy pw = true ->
  String.eqb (lower (strip confirm)) "y" = false ->
  main o {| keys := Line choice :: Line email :: Line name_text :: Line pw
                    :: Line confirm :: rest;
            script := file |}
  = (Ret false, {| keys := rest; script := file |}).
Proof.
  intros Hp Hname Hemail Hpw Hconfirm.
  pose proof (named_provider_has_server _ Hp Hname) as Hserver.
  unfold main, bind_T, get_smtp_settings. cbn [keys script choose]. rewrite Hp.
  unfold ask_custom. apply String.eqb_neq in Hname. rewrite Hname.
  unfold unit_T, input. cbn [keys script fst snd].
  rewrite Hserver, Hemail, Hpw. cbn [andb negb keys script].
  rewrite Hconfirm. reflexivity.
Qed.

Lemma unconfirmed_setup_writes_nothing_witness :
  main narrow_output
    {| keys := [Line "1"; Line "me@x.com"; Line ""; Line "secret"; Line "n"];
       script := {| content := Some "'smtp_port': 587"; can_read := true;
                    can_write := true |} |}
  = (Ret false,
     {| keys := [];
        script := {| content := Some "'smtp_port': 587"; can_read := true;
                     can_write := true |} |}).
Proof.
  apply (@unconfirmed_setup_writes_nothing narrow_output "1" gmail "me@x.com" ""
           "secret" "n" []
           {| content := Some "'smtp_port': 587"; can_read := true;
              can_write := true |}).
  - reflexivity.
  - discriminate.
  - reflexivity.
  - reflexivity.
  - reflexivity.
Defined.

(** X29.  When the server asked of a Custom SMTP user, the address (both
    after stripping) or the password is left empty, [main] returns [False]
    without asking for the confirmation and without touching the script
    file, whichever of the four providers was chosen. *)
Theorem missing_answer_ends_the_setup o choice p server_text port_text email name_text
    pw rest file :
  providers (strip choice) = Some p ->
  (name p = "Custom SMTP" /\ strip server_text = EmptyString)
  \/ strip email = EmptyString \/ pw = EmptyString ->
  main o {| keys := Line choice
                    :: (if String.eqb (name p) "Custom SMTP"
                        then [Line server_text; Line port_text]
                        else [])
                    ++ Line email :: Line name_text :: Line pw :: rest;
            script := file |}
  = (Ret false, {| keys := rest; script := file |}).
Proof.
  intros Hp Hmissing.
  unfold main, bind_T, get_smtp_settings. cbn [keys script choose]. rewrite Hp.
  unfold ask_custom.
  destruct (String.eqb (name p) "Custom SMTP") eqn:Hname.
  - unfold bind_T, unit_T, input. cbn [app keys script fst snd]. cbv zeta.
    cbn [fst snd].
    assert (Hall : truthy (strip server_text) && truthy (strip email) && truthy pw
                   = false).
    { destruct Hmissing as [[_ ->]|[-> | ->]]; cbn [truthy andb];
        rewrite ?andb_false_r; reflexivity. }
    rewrite Hall. reflexivity.
  - unfold unit_T, input. cbn [app keys script fst snd].
    assert (Hall : truthy (smtp_server p) && truthy (strip email) && truthy pw = false).
    { destruct Hmissing as [[Hn _]|[-> | ->]]; cbn [truthy];
        rewrite ?andb_false_r; try reflexivity.
      rewrite Hn in Hname. discriminate. }
    rewrite Hall. reflexivity.
Qed.

Lemma missing_answer_ends_the_setup_witness :
  main quiet
    {| keys := Line "4"
               :: (if String.eqb (name custom) "Custom SMTP"
                   then [Line "  "; Line "2525"]
                   else [])
               ++ Line "me@x.com" :: Line "Ann" :: Line "secret" :: [Line "y"];
       script := {| content := Some "'smtp_port': 587"; can_read := true;
                    can_write := true |} |}
  = (Ret false,
     {| keys := [Line "y"];
        script := {| content := Some "'smtp_port': 587"; can_read := true;
                     can_write := true |} |}).
Proof.
  apply (@missing_answer_ends_the_setup quiet "4" custom "  " "2525" "me@x.com" "Ann"
           "secret" [Line "y"]
           {| content := Some "'smtp_port': 587"; can_read := true;
              can_write := true |}).
  - reflexivity.
  - left. split; reflexivity.
Defined.

(** The same check stops a setup for a named provider. *)
Example missing_password_for_yahoo :
  main quiet
    {| keys := [Line "3"; Line "me@x.com"; Line "Ann"; Line ""; Line "y"];
       script := {| content := Some "'smtp_port': 587"; can_read := true;
                    can_write := true |} |}
  = (Ret false,
     {| keys := [Line "y"];
        script := {| content := Some "'smtp_port': 587"; can_read := true;
                     can_write := true |} |}).
Proof. reflexivity. Qed.

(** X30.  For the provider Custom SMTP, a port that is left empty or is not
    a number becomes 587. *)
Theorem custom_port_defaults_to_587 server_text port_text rest file :
  py_int (strip port_text) = None ->
  ask_custom custom {| keys := Line server_text :: Line port_text :: rest;
                       script := file |}
  = (Ret (strip server_text, 587%Z), {| keys := rest; script := file |}).
Proof.
  intros Hint. unfold ask_custom.
  change (String.eqb (name custom) "Custom SMTP") with true. cbv iota.
  unfold bind_T, input, unit_T. cbn [keys script]. cbv zeta.
  destruct (truthy (strip port_text)); [rewrite Hint|]; reflexivity.
Qed.

Lemma custom_port_defaults_to_587_witness :
  ask_custom custom
    {| keys := Line " mail.x.com " :: Line "5 87" :: [Line "me@x.com"];
       script := {| content := None; can_read := true; can_write := true |} |}
  = (Ret (strip " mail.x.com ", 587%Z),
     {| keys := [Line "me@x.com"];
        script := {| content := None; can_read := true; can_write := true |} |}).
Proof.
  apply (@custom_port_defaults_to_587 " mail.x.com " "5 87" [Line "me@x.com"]
           {| content := None; can_read := true; can_write := true |}).
  reflexivity.
Defined.

End SetupProps.
